(** * Retail order management: entity model, repository and reports

    A shallow embedding of [models.py], [file_database.py] and [analysis.py]
    and the properties their specification states about them.

    Conventions of the embedding:
    - a Python [str] is the list of its Unicode code points;
    - a stored Python [float] is the rational number it was written as;
      the arithmetic of [total_cost] is binary64 ([F64]: round to nearest,
      ties to even, with infinities and NaN), and [round(x, 2)] rounds the
      exact binary value half to even and returns the nearest binary64
      number; the sums of the pandas reports are taken over the rationals;
    - a Python [dict] is an association list in insertion order, updated in
      place when the key is already present (iteration order is observable
      in the reports and in the serialised documents);
    - a raised exception is the [Raise] branch of the [result] monad;
    - objects are modelled by their field values. *)

From Stdlib Require Import List ZArith NArith QArith Qround Lia Bool.
From Stdlib Require Import SpecFloat.
From Stdlib Require Import Permutation Sorted String Ascii.
Import ListNotations.

Set Implicit Arguments.
Close Scope Q_scope.
Set Warnings "-register-all".

(** ** Part I: the embedding *)

(** *** Strings *)

Module Str.

Definition char := N.
Definition str := list char.

(** ASCII literals of the source, as code points. *)
Fixpoint lit (s : string) : str :=
  match s with
  | EmptyString => []
  | String a t => N_of_ascii a :: lit t
  end.

Definition in_range (lo hi c : char) : bool := (lo <=? c)%N && (c <=? hi)%N.

Definition in_ranges (rs : list (char * char)) (c : char) : bool :=
  existsb (fun r => in_range (fst r) (snd r) c) rs.

(** The characters [str.strip()] removes: those for which [str.isspace]
    holds. *)
Definition space_ranges : list (char * char) :=
  [ (9, 13); (28, 32); (133, 133); (160, 160); (5760, 5760); (8192, 8202);
    (8232, 8233); (8239, 8239); (8287, 8287); (12288, 12288) ]%N.

Definition is_space : char -> bool := in_ranges space_ranges.

Fixpoint lstrip (s : str) : str :=
  match s with
  | [] => []
  | c :: t => if is_space c then lstrip t else s
  end.

Definition rstrip (s : str) : str := rev (lstrip (rev s)).

Definition strip (s : str) : str := rstrip (lstrip s).

(** The characters the pattern class [\d] matches in a [str] pattern: every
    Unicode decimal digit (category Nd, here as of Unicode 14), not only
    [0-9]. *)
Definition decimal_ranges : list (char * char) :=
  [ (48, 57); (1632, 1641); (1776, 1785); (1984, 1993); (2406, 2415);
    (2534, 2543); (2662, 2671); (2790, 2799); (2918, 2927); (3046, 3055);
    (3174, 3183); (3302, 3311); (3430, 3439); (3558, 3567); (3664, 3673);
    (3792, 3801); (3872, 3881); (4160, 4169); (4240, 4249); (6112, 6121);
    (6160, 6169); (6470, 6479); (6608, 6617); (6784, 6793); (6800, 6809);
    (6992, 7001); (7088, 7097); (7232, 7241); (7248, 7257); (42528, 42537);
    (43216, 43225); (43264, 43273); (43472, 43481); (43504, 43513);
    (43600, 43609); (44016, 44025); (65296, 65305); (66720, 66729);
    (68912, 68921); (69734, 69743); (69872, 69881); (69942, 69951);
    (70096, 70105); (70384, 70393); (70736, 70745); (70864, 70873);
    (71248, 71257); (71360, 71369); (71472, 71481); (71904, 71913);
    (72016, 72025); (72784, 72793); (73040, 73049); (73120, 73129);
    (92768, 92777); (92864, 92873); (93008, 93017); (120782, 120831);
    (123200, 123209); (123632, 123641); (125264, 125273);
    (130032, 130041) ]%N.

Definition is_decimal : char -> bool := in_ranges decimal_ranges.

Definition is_ascii (c : char) : bool := (c <? 128)%N.
Definition is_ascii_upper : char -> bool := in_range 65%N 90%N.
Definition is_ascii_lower : char -> bool := in_range 97%N 122%N.
Definition is_ascii_digit : char -> bool := in_range 48%N 57%N.
Definition is_ascii_letter (c : char) : bool :=
  is_ascii_lower c || is_ascii_upper c.

Definition ascii_lower_char (c : char) : char :=
  if is_ascii_upper c then (c + 32)%N else c.

Definition eqb (a b : str) : bool :=
  if list_eq_dec N.eq_dec a b then true else false.

(** Code-point order, the order of [str] comparison. *)
Fixpoint compare (a b : str) : comparison :=
  match a, b with
  | [], [] => Eq
  | [], _ :: _ => Lt
  | _ :: _, [] => Gt
  | x :: a', y :: b' =>
      match (x ?= y)%N with
      | Eq => compare a' b'
      | o => o
      end
  end.

Definition leb (a b : str) : bool :=
  match compare a b with Gt => false | _ => true end.

End Str.

Export Str (char, str).

(** *** Regular expressions

    The two patterns of [Client] use literals, character classes, [+],
    [{n}] and [{n,}]; matching is by Brzozowski derivatives. *)

Module Re.

Inductive regex : Type :=
| Void : regex
| Eps : regex
| Cls (p : char -> bool) : regex
| Cat (r1 r2 : regex) : regex
| Alt (r1 r2 : regex) : regex
| Star (r : regex) : regex.

Definition Chr (a : ascii) : regex := Cls (N.eqb (N_of_ascii a)).

Definition Plus (r : regex) : regex := Cat r (Star r).

Fixpoint Rep (n : nat) (r : regex) : regex :=
  match n with
  | O => Eps
  | S k => Cat r (Rep k r)
  end.

Definition AtLeast (n : nat) (r : regex) : regex := Cat (Rep n r) (Star r).

Fixpoint nullable (r : regex) : bool :=
  match r with
  | Void => false
  | Eps => true
  | Cls _ => false
  | Cat r1 r2 => nullable r1 && nullable r2
  | Alt r1 r2 => nullable r1 || nullable r2
  | Star _ => true
  end.

Fixpoint deriv (c : char) (r : regex) : regex :=
  match r with
  | Void => Void
  | Eps => Void
  | Cls p => if p c then Eps else Void
  | Cat r1 r2 =>
      if nullable r1
      then Alt (Cat (deriv c r1) r2) (deriv c r2)
      else Cat (deriv c r1) r2
  | Alt r1 r2 => Alt (deriv c r1) (deriv c r2)
  | Star r1 => Cat (deriv c r1) (Star r1)
  end.

Fixpoint fullmatch (r : regex) (s : str) : bool :=
  match s with
  | [] => nullable r
  | c :: t => fullmatch (deriv c r) t
  end.

(** [re.compile('^' r '$').match(s)] is not [None]: without [re.MULTILINE]
    the anchor [$] holds at the end of the string and also just before a
    newline that ends the string. *)
Definition match_anchored (r : regex) (s : str) : bool :=
  fullmatch r s ||
  match rev s with
  | c :: t => N.eqb c 10%N && fullmatch r (rev t)
  | [] => false
  end.

(** The language of a pattern, as a relation. *)
Inductive matches : regex -> str -> Prop :=
| m_eps : matches Eps []
| m_cls : forall p c, p c = true -> matches (Cls p) [c]
| m_cat : forall r1 r2 s1 s2,
    matches r1 s1 -> matches r2 s2 -> matches (Cat r1 r2) (s1 ++ s2)
| m_alt_l : forall r1 r2 s, matches r1 s -> matches (Alt r1 r2) s
| m_alt_r : forall r1 r2 s, matches r2 s -> matches (Alt r1 r2) s
| m_star_nil : forall r, matches (Star r) []
| m_star_cons : forall r s1 s2,
    matches r s1 -> matches (Star r) s2 -> matches (Star r) (s1 ++ s2).

End Re.

(** *** Exceptions *)

Inductive message : Type :=
| BadPhone (value : str)      (* "Неверный телефон: ..." *)
| BadEmail (value : str)      (* "Неверный email: ..." *)
| BadIsoFormat (value : str)  (* datetime.fromisoformat *)
| BadNumber (value : str).    (* int(), float() of a string *)

Inductive exn : Type :=
| ValueError (m : message)
| KeyError
| TypeError
| AttributeError
| OSError.

Inductive result (A : Type) : Type :=
| Ok (a : A)
| Raise (e : exn).

Arguments Ok {A} a.
Arguments Raise {A} e.

Definition bind {A B : Type} (m : result A) (k : A -> result B) : result B :=
  match m with
  | Ok a => k a
  | Raise e => Raise e
  end.

Notation "x <- m ;; k" := (bind m (fun x => k))
  (at level 61, m at next level, right associativity).

Fixpoint mapM {A B : Type} (f : A -> result B) (l : list A)
  : result (list B) :=
  match l with
  | [] => Ok []
  | a :: t => b <- f a ;; bs <- mapM f t ;; Ok (b :: bs)
  end.

(** [try: ... except Exception: return default]. *)
Definition except {A : Type} (m : result A) (default : A) : A :=
  match m with
  | Ok a => a
  | Raise _ => default
  end.

(** *** Numbers *)

Module Num.

(** The integer nearest to [q], ties to the even one. *)
Definition round_half_even (q : Q) : Z :=
  let f := Qfloor q in
  match Qcompare (q - inject_Z f)%Q (1 # 2)%Q with
  | Lt => f
  | Gt => (f + 1)%Z
  | Eq => if Z.even f then f else (f + 1)%Z
  end.

(** [sum(xs)]: a left fold that starts from [0]. *)
Definition sum (xs : list Q) : Q := fold_left Qplus xs 0%Q.

(** [int(x)] of a float truncates towards zero. *)
Definition trunc (q : Q) : Z := Z.quot (Qnum q) (Zpos (Qden q)).

Definition is_integral (q : Q) : bool :=
  Qeq_bool q (inject_Z (trunc q)).

End Num.

(** *** Binary64

    The [float] of the interpreter is IEEE 754 binary64; its operations are
    those of the standard library's [SpecFloat] at precision 53 and maximal
    exponent 1024, which round to nearest, ties to even. *)

Module F64.

Definition prec : Z := 53.
Definition emax : Z := 1024.

Definition t : Type := spec_float.

(** [0.0]. *)
Definition zero : t := S754_zero false.

(** [x + y] and [x * y]. *)
Definition add (x y : t) : t := SFadd prec emax x y.
Definition mul (x y : t) : t := SFmul prec emax x y.

(** The binary64 number nearest to [n / d], of the given sign. *)
Definition ratio (negative : bool) (n d : positive) : t :=
  SFdiv prec emax (S754_finite negative n 0) (S754_finite false d 0).

(** The value the interpreter holds for a number written in decimal: the
    binary64 number nearest to it (the number itself when it is one). *)
Definition of_Q (q : Q) : t :=
  match Qnum q with
  | Z0 => zero
  | Zpos n => ratio false n (Qden q)
  | Zneg n => ratio true n (Qden q)
  end.

(** The exact value of [m * 2 ^ e]. *)
Definition magnitude (m : positive) (e : Z) : Q :=
  match e with
  | Zneg k => Zpos m # Pos.pow 2 k
  | _ => inject_Z (Zpos m * 2 ^ e)
  end.

(** The exact value of a finite number. *)
Definition to_Q (x : t) : option Q :=
  match x with
  | S754_zero _ => Some 0%Q
  | S754_finite s m e =>
      Some (if s then Qopp (magnitude m e) else magnitude m e)
  | S754_infinity _ | S754_nan => None
  end.

(** [sum(xs)] of floats: a left fold that starts from the integer [0],
    which the first addition turns into [0.0]; the same value stands for
    the [0] of an empty sum once it is added to a float.  This is the sum
    of CPython up to 3.11; later versions carry a compensation term, which
    changes no sum of one or two numbers. *)
Definition sum (xs : list t) : t := fold_left add xs zero.

(** [round(x, 2)]: infinities, NaN and zeros are returned as they are; a
    finite number is rounded to a whole number of hundredths on its exact
    value, ties to even, and the binary64 number nearest to that decimal
    is returned, with the sign of [x]. *)
Definition round2 (x : t) : t :=
  match x with
  | S754_finite s m e =>
      match Num.round_half_even (magnitude m e * 100)%Q with
      | Zpos n => ratio s n 100
      | _ => S754_zero s
      end
  | _ => x
  end.


End F64.

(** *** Values of the JSON documents and of [dict] records *)

Inductive value : Type :=
| VNone : value
| VBool (b : bool) : value
| VInt (z : Z) : value
| VFloat (q : Q) : value
| VStr (s : str) : value
| VList (l : list value) : value
| VDict (d : list (str * value)) : value.

Module Dict.

Section Assoc.
Variables K V : Type.
Variable eqb : K -> K -> bool.

Definition t := list (K * V).

Fixpoint get (k : K) (d : t) : option V :=
  match d with
  | [] => None
  | (k', v) :: rest => if eqb k k' then Some v else get k rest
  end.

Definition mem (k : K) (d : t) : bool :=
  match get k d with Some _ => true | None => false end.

(** [d[k] = v]: the value of a present key is replaced where it stands, a
    new key goes to the end. *)
Fixpoint set (k : K) (v : V) (d : t) : t :=
  match d with
  | [] => [(k, v)]
  | (k', v') :: rest =>
      if eqb k k' then (k', v) :: rest else (k', v') :: set k v rest
  end.

(** [{key(x): val(x) for x in xs}]. *)
Definition comprehension {A : Type} (key : A -> K) (val : A -> V)
  (xs : list A) : t :=
  fold_left (fun d x => set (key x) (val x) d) xs [].

Definition keys (d : t) : list K := map fst d.

End Assoc.

End Dict.

(** *** Dynamic conversions *)

Record datetime : Type := mk_datetime {
  year : Z; month : Z; day : Z;
  hour : Z; minute : Z; second : Z; microsecond : Z
}.

(** [datetime.date()]. *)
Definition date_of (d : datetime) : Z * Z * Z := (year d, month d, day d).

(** The calendar of [datetime]: the proleptic Gregorian one. *)
Definition is_leap (y : Z) : bool :=
  ((y mod 4 =? 0) && negb (y mod 100 =? 0) || (y mod 400 =? 0))%Z.

Definition days_in_month (y m : Z) : Z :=
  if (m =? 2)%Z then (if is_leap y then 29 else 28)%Z
  else if ((m =? 4) || (m =? 6) || (m =? 9) || (m =? 11))%Z then 30%Z
  else 31%Z.

(** The values a [datetime] can have: a day of the calendar in the years 1
    to 9999 and a time of day. *)
Definition valid_datetime (d : datetime) : Prop :=
  (1 <= year d <= 9999 /\ 1 <= month d <= 12 /\
   1 <= day d <= days_in_month (year d) (month d) /\
   0 <= hour d <= 23 /\ 0 <= minute d <= 59 /\ 0 <= second d <= 59 /\
   0 <= microsecond d <= 999999)%Z.

(** What the embedding takes from the interpreter and its library rather
    than from the repository: case mapping outside ASCII, the ISO-8601 codec
    of [datetime], and the parsers behind [int(str)] and [float(str)]. *)
Class Runtime : Type := {
  unicode_lower : str -> str;
  isoformat : datetime -> str;
  fromisoformat : str -> option datetime;
  int_of_str : str -> option Z;
  float_of_str : str -> option Q
}.

Section Dynamic.
Context {rt : Runtime}.

(** [s.lower()]: an ASCII string is mapped character by character, any
    other string by the Unicode tables. *)
Definition lower (s : str) : str :=
  if forallb Str.is_ascii s then map Str.ascii_lower_char s
  else unicode_lower s.

(** [int(x)]. *)
Definition py_int (x : value) : result Z :=
  match x with
  | VInt z => Ok z
  | VBool b => Ok (if b then 1 else 0)%Z
  | VFloat q => Ok (Num.trunc q)
  | VStr s =>
      match int_of_str s with
      | Some z => Ok z
      | None => Raise (ValueError (BadNumber s))
      end
  | _ => Raise TypeError
  end.

(** [float(x)]. *)
Definition py_float (x : value) : result Q :=
  match x with
  | VInt z => Ok (inject_Z z)
  | VBool b => Ok (if b then 1 else 0)%Q
  | VFloat q => Ok q
  | VStr s =>
      match float_of_str s with
      | Some q => Ok q
      | None => Raise (ValueError (BadNumber s))
      end
  | _ => Raise TypeError
  end.

(** Truth value of [x] in a condition. *)
Definition truthy (x : value) : bool :=
  match x with
  | VNone => false
  | VBool b => b
  | VInt z => negb (Z.eqb z 0)
  | VFloat q => negb (Qeq_bool q 0%Q)
  | VStr s => match s with [] => false | _ => true end
  | VList l => match l with [] => false | _ => true end
  | VDict d => match d with [] => false | _ => true end
  end.

(** [x.strip()]: only a [str] has the method. *)
Definition py_strip (x : value) : result str :=
  match x with
  | VStr s => Ok (Str.strip s)
  | _ => Raise AttributeError
  end.

(** [data[key]] for a string key. *)
Definition item (data : value) (key : string) : result value :=
  match data with
  | VDict d =>
      match Dict.get Str.eqb (Str.lit key) d with
      | Some v => Ok v
      | None => Raise KeyError
      end
  | _ => Raise TypeError
  end.

(** [data.get(key, default)]. *)
Definition get_default (data : value) (key : string) (default : value)
  : result value :=
  match data with
  | VDict d =>
      match Dict.get Str.eqb (Str.lit key) d with
      | Some v => Ok v
      | None => Ok default
      end
  | _ => Raise AttributeError
  end.

(** [for x in v]: the elements of a list, the characters of a string, the
    keys of a dict. *)
Definition iterate (v : value) : result (list value) :=
  match v with
  | VList l => Ok l
  | VStr s => Ok (map (fun c => VStr [c]) s)
  | VDict d => Ok (map (fun kv => VStr (fst kv)) d)
  | _ => Raise TypeError
  end.

(** [v.items()]. *)
Definition items (v : value) : result (list (str * value)) :=
  match v with
  | VDict d => Ok d
  | _ => Raise AttributeError
  end.

(** The integer a value hashes and compares equal to, as a key of a dict
    with [int] keys; [None] on the right stands for an absent key. *)
Definition int_key (v : value) : result (option Z) :=
  match v with
  | VInt z => Ok (Some z)
  | VBool b => Ok (Some (if b then 1 else 0)%Z)
  | VFloat q => Ok (if Num.is_integral q then Some (Num.trunc q) else None)
  | VNone | VStr _ => Ok None
  | VList _ | VDict _ => Raise TypeError
  end.

End Dynamic.

(** *** models.py *)

Module Client.

Record t : Type := mk {
  number : Z;
  fio : str;
  phone : str;
  email : str
}.

(** [r'^\+7\d{10}$'] without its anchors. *)
Definition phone_pattern : Re.regex :=
  Re.Cat (Re.Chr "+") (Re.Cat (Re.Chr "7") (Re.Rep 10 (Re.Cls Str.is_decimal))).

Definition one_of (s : string) (c : char) : bool :=
  existsb (N.eqb c) (Str.lit s).

(** [[a-zA-Z0-9._%+-]] *)
Definition local_class (c : char) : bool :=
  Str.is_ascii_letter c || Str.is_ascii_digit c || one_of "._%+-" c.

(** [[a-zA-Z0-9.-]] *)
Definition domain_class (c : char) : bool :=
  Str.is_ascii_letter c || Str.is_ascii_digit c || one_of ".-" c.

(** [r'^[a-zA-Z0-9._%+-]+@[a-zA-Z0-9.-]+\.[a-zA-Z]{2,}$'] without its
    anchors. *)
Definition email_pattern : Re.regex :=
  Re.Cat (Re.Plus (Re.Cls local_class))
    (Re.Cat (Re.Chr "@")
       (Re.Cat (Re.Plus (Re.Cls domain_class))
          (Re.Cat (Re.Chr ".") (Re.AtLeast 2 (Re.Cls Str.is_ascii_letter))))).

Definition nonempty (s : str) : bool :=
  match s with [] => false | _ :: _ => true end.

Definition validate (self : t) : result unit :=
  if nonempty (phone self)
     && negb (Re.match_anchored phone_pattern (phone self))
  then Raise (ValueError (BadPhone (phone self)))
  else if nonempty (email self)
          && negb (Re.match_anchored email_pattern (email self))
  then Raise (ValueError (BadEmail (email self)))
  else Ok tt.

Definition to_dict (self : t) : value :=
  VDict [ (Str.lit "number", VInt (number self));
          (Str.lit "fio", VStr (fio self));
          (Str.lit "phone", VStr (phone self));
          (Str.lit "email", VStr (email self)) ].

Section WithRuntime.
Context {rt : Runtime}.

(** [Client.__init__] *)
Definition init (number fio phone email : value) : result t :=
  n <- py_int number ;;
  f <- py_strip fio ;;
  p <- py_strip phone ;;
  e <- py_strip email ;;
  let self := mk n f p (lower e) in
  _ <- validate self ;;
  Ok self.

(** [Client(number, fio, phone, email)] on arguments of the annotated
    types. *)
Definition new (number : Z) (fio phone email : str) : result t :=
  init (VInt number) (VStr fio) (VStr phone) (VStr email).

Definition from_dict (data : value) : result t :=
  number <- item data "number" ;;
  fio <- item data "fio" ;;
  phone <- get_default data "phone" (VStr []) ;;
  email <- get_default data "email" (VStr []) ;;
  init number fio phone email.

End WithRuntime.

End Client.

Module Product.

Record t : Type := mk {
  name : str;
  price : Q;
  is_per_kg : bool
}.

Definition eq_dec (a b : t) : {a = b} + {a <> b}.
Proof.
  decide equality.
  - apply bool_dec.
  - decide equality; [apply Pos.eq_dec | apply Z.eq_dec].
  - apply (list_eq_dec N.eq_dec).
Defined.

Definition eqb (a b : t) : bool := if eq_dec a b then true else false.

Definition to_dict (self : t) : value :=
  VDict [ (Str.lit "name", VStr (name self));
          (Str.lit "price", VFloat (price self));
          (Str.lit "is_per_kg", VBool (is_per_kg self)) ].

Section WithRuntime.
Context {rt : Runtime}.

(** [Product.__init__]; the flag is kept as its truth value. *)
Definition init (name price is_per_kg : value) : result t :=
  n <- py_strip name ;;
  p <- py_float price ;;
  Ok (mk n p (truthy is_per_kg)).

Definition new (name : str) (price : Q) (is_per_kg : bool) : result t :=
  init (VStr name) (VFloat price) (VBool is_per_kg).

Definition from_dict (data : value) : result t :=
  name <- item data "name" ;;
  price <- item data "price" ;;
  flag <- get_default data "is_per_kg" (VBool false) ;;
  init name price flag.

End WithRuntime.

End Product.

Module Order.

Record t : Type := mk {
  number : Z;
  client : Client.t;
  products_list : list Product.t;
  products_kg : list (Product.t * Q);
  date : datetime
}.

(** The [total_cost] property, in binary64. *)
Definition total_cost (self : t) : F64.t :=
  let total := F64.zero in
  let total :=
    F64.add total
      (F64.sum (map (fun p => F64.of_Q (Product.price p))
                    (products_list self))) in
  let total :=
    F64.add total
      (F64.sum (map (fun it => F64.mul (F64.of_Q (Product.price (fst it)))
                                       (F64.of_Q (snd it)))
                    (products_kg self))) in
  F64.round2 total.

Section WithRuntime.
Context {rt : Runtime}.

(** [Order.__init__]; [clock] is what [datetime.now()] would return, read
    only when no date is given. *)
Definition init (clock : datetime) (number : value) (client : Client.t)
  (products_list : option (list Product.t))
  (products_kg : option (list (Product.t * Q)))
  (date : option datetime) : result t :=
  n <- py_int number ;;
  Ok (mk n client
        (match products_list with Some l => l | None => [] end)
        (match products_kg with Some d => d | None => [] end)
        (match date with Some d => d | None => clock end)).

Definition to_dict (self : t) : value :=
  VDict [ (Str.lit "number", VInt (number self));
          (Str.lit "client_number", VInt (Client.number (client self)));
          (Str.lit "products_list",
             VList (map (fun p => VStr (Product.name p))
                        (products_list self)));
          (Str.lit "products_kg",
             VDict (Dict.comprehension Str.eqb
                      (fun it => Product.name (fst it))
                      (fun it => VFloat (snd it))
                      (products_kg self)));
          (Str.lit "date", VStr (isoformat (date self))) ].

(** [{p.name: p for p in products_catalog}] *)
Definition name_to_product (products_catalog : list Product.t)
  : list (str * Product.t) :=
  Dict.comprehension Str.eqb Product.name (fun p => p) products_catalog.

(** [name in name_to_product], giving the entry when there is one; a list
    or dict is not hashable. *)
Definition lookup_name (index : list (str * Product.t)) (name : value)
  : result (option Product.t) :=
  match name with
  | VStr s => Ok (Dict.get Str.eqb s index)
  | VList _ | VDict _ => Raise TypeError
  | _ => Ok None
  end.

(** The loop over [data.get("products_list", [])]. *)
Fixpoint resolve_list (index : list (str * Product.t)) (names : list value)
  (products_list : list Product.t) : result (list Product.t) :=
  match names with
  | [] => Ok products_list
  | name :: rest =>
      found <- lookup_name index name ;;
      match found with
      | Some p => resolve_list index rest (products_list ++ [p])
      | None => resolve_list index rest products_list
      end
  end.

(** The loop over [data.get("products_kg", {}).items()]. *)
Fixpoint resolve_kg (index : list (str * Product.t))
  (entries : list (str * value)) (products_kg : list (Product.t * Q))
  : result (list (Product.t * Q)) :=
  match entries with
  | [] => Ok products_kg
  | (name, kg) :: rest =>
      match Dict.get Str.eqb name index with
      | Some p =>
          if Product.is_per_kg p
          then w <- py_float kg ;;
               resolve_kg index rest (Dict.set Product.eqb p w products_kg)
          else resolve_kg index rest products_kg
      | None => resolve_kg index rest products_kg
      end
  end.

(** [clients_map[key]] *)
Definition lookup_client (clients_map : list (Z * Client.t)) (key : value)
  : result Client.t :=
  k <- int_key key ;;
  match k with
  | Some z =>
      match Dict.get Z.eqb z clients_map with
      | Some c => Ok c
      | None => Raise KeyError
      end
  | None => Raise KeyError
  end.

(** [datetime.fromisoformat(v)] *)
Definition parse_date (v : value) : result datetime :=
  match v with
  | VStr s =>
      match fromisoformat s with
      | Some d => Ok d
      | None => Raise (ValueError (BadIsoFormat s))
      end
  | _ => Raise TypeError
  end.

Definition from_dict (data : value) (clients_map : list (Z * Client.t))
  (products_catalog : list Product.t) : result t :=
  key <- item data "client_number" ;;
  client <- lookup_client clients_map key ;;
  let index := name_to_product products_catalog in
  names_v <- get_default data "products_list" (VList []) ;;
  names <- iterate names_v ;;
  products_list <- resolve_list index names [] ;;
  kg_v <- get_default data "products_kg" (VDict []) ;;
  entries <- items kg_v ;;
  products_kg <- resolve_kg index entries [] ;;
  date_v <- item data "date" ;;
  date <- parse_date date_v ;;
  number <- item data "number" ;;
  (* a date is passed, so the clock is not read *)
  init date number client (Some products_list) (Some products_kg) (Some date).

End WithRuntime.

End Order.

(** The module-level function [orders_to_df] of [models.py]; the frame is
    the list of its rows. *)
Module Models.

Record row : Type := mk_row {
  OrderNumber : Z;
  ClientNumber : Z;
  ClientFIO : str;
  ProductName : str;
  Price : Q;
  Quantity : Q;
  Revenue : Q;
  IsPerKg : bool;
  OrderDate : Z * Z * Z
}.

Definition unit_row (order : Order.t) (product : Product.t) : row :=
  mk_row (Order.number order)
         (Client.number (Order.client order))
         (Client.fio (Order.client order))
         (Product.name product)
         (Product.price product)
         1%Q
         (Product.price product)
         false
         (date_of (Order.date order)).

Definition weight_row (order : Order.t) (it : Product.t * Q) : row :=
  mk_row (Order.number order)
         (Client.number (Order.client order))
         (Client.fio (Order.client order))
         (Product.name (fst it))
         (Product.price (fst it))
         (snd it)
         (Product.price (fst it) * snd it)%Q
         true
         (date_of (Order.date order)).

Definition orders_to_df (orders : list Order.t) : list row :=
  flat_map (fun order =>
              map (unit_row order) (Order.products_list order)
              ++ map (weight_row order) (Order.products_kg order))
           orders.

End Models.

(** *** file_database.py *)

Module FileDatabase.

(** A document of the data directory: absent, present but not readable as
    JSON, or holding a JSON value. *)
Inductive file : Type :=
| Absent
| Garbled
| Json (v : value).

Record disk : Type := mk_disk {
  clients_file : file;
  orders_file : file
}.

(** How the write of a mutation ends: the document is replaced, or the
    write raises and leaves the document in some state. *)
Inductive io : Type :=
| Written
| Failed (remains : file).

Record t : Type := mk {
  clients : list Client.t;
  orders : list Order.t;
  next_client_id : Z;
  next_order_id : Z
}.

(** [json.load(f)] *)
Definition json_load (f : file) : result value :=
  match f with
  | Json v => Ok v
  | _ => Raise OSError
  end.

(** [max(xs, default=0)] *)
Definition max_default0 (xs : list Z) : Z :=
  match xs with
  | [] => 0%Z
  | x :: rest => fold_left Z.max rest x
  end.

Section WithRuntime.
Context {rt : Runtime}.

Definition _load_clients (d : disk) : list Client.t :=
  match clients_file d with
  | Absent => []
  | f =>
      except (data <- json_load f ;;
              records <- iterate data ;;
              mapM Client.from_dict records)
             []
  end.

(** The call [Order.from_dict(o, clients_map)] as [_load_orders] writes it:
    [from_dict] has three required parameters, [products_catalog] is not
    supplied, so binding the arguments raises [TypeError] before the body
    runs. *)
Definition from_dict_two_arguments (o : value)
  (clients_map : list (Z * Client.t)) : result Order.t :=
  Raise TypeError.

Definition _load_orders (d : disk) (clients : list Client.t)
  : list Order.t :=
  match orders_file d, clients with
  | Absent, _ => []
  | _, [] => []
  | f, _ =>
      except (data <- json_load f ;;
              let clients_map :=
                Dict.comprehension Z.eqb Client.number (fun c => c) clients in
              records <- iterate data ;;
              mapM (fun o => from_dict_two_arguments o clients_map) records)
             []
  end.

(** [FileDatabase.__init__] over a data directory in state [d]. *)
Definition init (d : disk) : t :=
  let clients := _load_clients d in
  let orders := _load_orders d clients in
  mk clients orders
     (max_default0 (map Client.number clients) + 1)
     (max_default0 (map Order.number orders) + 1).

Definition write (w : io) (content : value) : file * result unit :=
  match w with
  | Written => (Json content, Ok tt)
  | Failed remains => (remains, Raise OSError)
  end.

Definition _save_clients (w : io) (self : t) (d : disk)
  : disk * result unit :=
  let data := VList (map Client.to_dict (clients self)) in
  let (f, r) := write w data in
  (mk_disk f (orders_file d), r).

Definition _save_orders (w : io) (self : t) (d : disk)
  : disk * result unit :=
  let data := VList (map Order.to_dict (orders self)) in
  let (f, r) := write w data in
  (mk_disk (clients_file d) f, r).

(** The mutators return the object and the directory after the call, and
    what the call returned or raised. *)
Definition add_client (w : io) (client : Client.t) (self : t) (d : disk)
  : t * disk * result unit :=
  let self := mk (clients self ++ [client]) (orders self)
                 (next_client_id self) (next_order_id self) in
  let self := mk (clients self) (orders self)
                 (Z.max (next_client_id self) (Client.number client + 1))
                 (next_order_id self) in
  let (d', r) := _save_clients w self d in
  (self, d', r).

Definition add_order (w : io) (order : Order.t) (self : t) (d : disk)
  : t * disk * result unit :=
  let self := mk (clients self) (orders self ++ [order])
                 (next_client_id self) (next_order_id self) in
  let self := mk (clients self) (orders self)
                 (next_client_id self)
                 (Z.max (next_order_id self) (Order.number order + 1)) in
  let (d', r) := _save_orders w self d in
  (self, d', r).

Definition get_clients (self : t) : list Client.t := clients self.
Definition get_orders (self : t) : list Order.t := orders self.
Definition get_next_client_id (self : t) : Z := next_client_id self.
Definition get_next_order_id (self : t) : Z := next_order_id self.

(** [next((c for c in self.clients if c.number == client_id), None)] *)
Definition find_client_by_id (self : t) (client_id : Z) : option Client.t :=
  find (fun c => Z.eqb (Client.number c) client_id) (clients self).

(** A row of the frame [FileDatabase.orders_to_df] builds; the date is the
    [%Y-%m-%d] text, kept as its three numbers. *)
Record export_row : Type := mk_export_row {
  OrderNumber : Z;
  ClientID : Z;
  ClientFIO : str;
  ProductName : str;
  ProductPrice : Q;
  OrderDate : Z * Z * Z
}.

(** [order.products]: an [Order] of [models.py] has the attributes
    [products_list] and [products_kg] and no attribute [products], so the
    access raises [AttributeError]. *)
Definition order_products (order : Order.t) : result (list Product.t) :=
  Raise AttributeError.

(** The loop of [FileDatabase.orders_to_df] over [self.orders]. *)
Fixpoint orders_to_df_loop (orders : list Order.t) (data : list export_row)
  : result (list export_row) :=
  match orders with
  | [] => Ok data
  | order :: rest =>
      products <- order_products order ;;
      orders_to_df_loop rest
        (data ++ map (fun product =>
                        mk_export_row (Order.number order)
                          (Client.number (Order.client order))
                          (Client.fio (Order.client order))
                          (Product.name product)
                          (Product.price product)
                          (date_of (Order.date order)))
                     products)
  end.

Definition orders_to_df (self : t) : result (list export_row) :=
  orders_to_df_loop (orders self) [].

(** [export_to_csv]: the frame that is written to the file, when the call
    gets that far. *)
Definition export_to_csv (self : t) : result (list export_row) :=
  df <- orders_to_df self ;;
  Ok df.

(** A call of one of the two mutators. *)
Inductive call : Type :=
| AddClient (w : io) (client : Client.t)
| AddOrder (w : io) (order : Order.t).

Definition step (st : t * disk) (c : call) : t * disk :=
  match c with
  | AddClient w client => fst (add_client w client (fst st) (snd st))
  | AddOrder w order => fst (add_order w order (fst st) (snd st))
  end.

Definition run (st : t * disk) (calls : list call) : t * disk :=
  fold_left step calls st.

End WithRuntime.

End FileDatabase.

(** *** analysis.py

    The module has its own entity classes (an order carries one list
    [products]) and builds its reports with pandas.  A [DataFrame] is the
    list of its rows and a [Series] the list of its (index, value) pairs. *)

Module Analysis.

Record Product : Type := mk_product { name : str; price : Q }.
Record Client : Type := mk_client { number : Z; fio : str }.
Record Order : Type := mk_order {
  order_number : Z;
  client : Client;
  products : list Product;
  date : datetime
}.

Record row : Type := mk_row {
  OrderNumber : Z;
  ClientNumber : Z;
  ClientFIO : str;
  ProductName : str;
  ProductPrice : Q;
  OrderDate : Z * Z * Z
}.

Definition DataFrame := list row.
Definition Series (K V : Type) := list (K * V).

Definition orders_to_df (orders : list Order) : DataFrame :=
  flat_map (fun order =>
    map (fun product =>
           mk_row (order_number order)
                  (number (client order))
                  (fio (client order))
                  (name product)
                  (price product)
                  (date_of (date order)))
        (products order))
    orders.

(** [df.empty] *)
Definition empty (df : DataFrame) : bool :=
  match df with [] => true | _ :: _ => false end.

(** A frame built from no records has no columns: selecting or grouping by
    a column name raises [KeyError]. *)
Definition require_columns (df : DataFrame) : result unit :=
  match df with [] => Raise KeyError | _ :: _ => Ok tt end.

(** Stable insertion sort; [before x y] says that [x] may stand before
    [y]. *)
Fixpoint insert {A : Type} (before : A -> A -> bool) (x : A) (l : list A)
  : list A :=
  match l with
  | [] => [x]
  | y :: t => if before x y then x :: l else y :: insert before x t
  end.

Definition sort {A : Type} (before : A -> A -> bool) (l : list A) : list A :=
  fold_right (insert before) [] l.

Section GroupBy.
Variable K : Type.
Variable K_eq_dec : forall a b : K, {a = b} + {a <> b}.
Variable K_leb : K -> K -> bool.

(** [df.groupby(key)]: one group per key value, in ascending key order,
    each with its rows in frame order. *)
Definition groupby (key : row -> K) (df : DataFrame) : list (K * list row) :=
  map (fun k =>
         (k, filter (fun r => if K_eq_dec (key r) k then true else false) df))
      (sort K_leb (nodup K_eq_dec (map key df))).

End GroupBy.

(** [.nunique()] of the [OrderNumber] column of a group. *)
Definition nunique (rows : list row) : nat :=
  List.length (nodup Z.eq_dec (map OrderNumber rows)).

(** [.sum()] of the [ProductPrice] column of a group. *)
Definition sum_price (rows : list row) : Q :=
  Num.sum (map ProductPrice rows).

(** [.sort_values(ascending=False)].  Which of two entries of equal value
    comes first is left to the sorting algorithm of the library; here they
    keep their order, and no statement below depends on it. *)
Definition sort_values_desc {K V : Type} (ge : V -> V -> bool)
  (s : Series K V) : Series K V :=
  sort (fun a b => ge (snd a) (snd b)) s.

(** [.head(n)]: the first [n] entries, or all but the last [-n] when [n] is
    negative. *)
Definition head {A : Type} (n : Z) (l : list A) : list A :=
  if (0 <=? n)%Z then firstn (Z.to_nat n) l
  else firstn (List.length l - Z.to_nat (- n)) l.

Definition client_key (r : row) : Z * str := (ClientNumber r, ClientFIO r).

Definition client_key_eq_dec (a b : Z * str) : {a = b} + {a <> b}.
Proof.
  decide equality; [apply (list_eq_dec N.eq_dec) | apply Z.eq_dec].
Defined.

Definition client_key_leb (a b : Z * str) : bool :=
  match (fst a ?= fst b)%Z with
  | Lt => true
  | Gt => false
  | Eq => Str.leb (snd a) (snd b)
  end.

Definition date_eq_dec (a b : Z * Z * Z) : {a = b} + {a <> b}.
Proof.
  decide equality; [apply Z.eq_dec | decide equality; apply Z.eq_dec].
Defined.

Definition date_leb (a b : Z * Z * Z) : bool :=
  let '(y1, m1, d1) := a in
  let '(y2, m2, d2) := b in
  match (y1 ?= y2)%Z with
  | Lt => true
  | Gt => false
  | Eq => match (m1 ?= m2)%Z with
          | Lt => true
          | Gt => false
          | Eq => (d1 <=? d2)%Z
          end
  end.

Definition default_top (top : option Z) : Z :=
  match top with Some n => n | None => 5%Z end.

Definition top_clients_by_orders (orders : list Order) (top : option Z)
  : result (Series (Z * str) nat) :=
  let top := default_top top in
  let df := orders_to_df orders in
  if empty df then Ok []
  else
    _ <- require_columns df ;;
    let top_clients :=
      head top
        (sort_values_desc (fun a b => Nat.leb b a)
           (map (fun g => (fst g, nunique (snd g)))
                (groupby client_key_eq_dec client_key_leb client_key df))) in
    Ok top_clients.

Definition top_clients_by_revenue (orders : list Order) (top : option Z)
  : result (Series (Z * str) Q) :=
  let top := default_top top in
  let df := orders_to_df orders in
  if empty df then Ok []
  else
    (* df['Revenue'] = df['ProductPrice'] *)
    _ <- require_columns df ;;
    let revenue :=
      head top
        (sort_values_desc (fun a b => Qle_bool b a)
           (map (fun g => (fst g, sum_price (snd g)))
                (groupby client_key_eq_dec client_key_leb client_key df))) in
    Ok revenue.

Definition top_products_by_revenue (orders : list Order) (top : option Z)
  : result (Series str Q) :=
  let top := default_top top in
  let df := orders_to_df orders in
  if empty df then Ok []
  else
    _ <- require_columns df ;;
    let top_prod :=
      head top
        (sort_values_desc (fun a b => Qle_bool b a)
           (map (fun g => (fst g, sum_price (snd g)))
                (groupby (list_eq_dec N.eq_dec) Str.leb ProductName df))) in
    Ok top_prod.

(** The figure the function draws is an effect outside the model. *)
Definition order_dynamics (orders : list Order)
  : result (Series (Z * Z * Z) nat) :=
  let df := orders_to_df orders in
  if empty df then Ok []
  else
    _ <- require_columns df ;;
    let daily_orders :=
      map (fun g => (fst g, nunique (snd g)))
          (groupby date_eq_dec date_leb OrderDate df) in
    Ok daily_orders.

End Analysis.

(** *** A runtime to evaluate the embedding with

    Case mapping that leaves non-ASCII characters alone, the extended
    ISO-8601 form [YYYY-MM-DDTHH:MM:SS[.ffffff]] that [isoformat] emits for
    a naive [datetime], and signed decimal integer literals. *)

Module Sample.

Definition digit (d : Z) : char := Z.to_N (48 + d).

Definition digit_value (c : char) : Z := (Z.of_N c - 48)%Z.

(** [n] in [w] decimal digits, zero padded. *)
Fixpoint pad (w : nat) (n : Z) : str :=
  match w with
  | O => []
  | S k => pad k (n / 10) ++ [digit (n mod 10)]
  end.

Definition number (ds : str) : Z :=
  fold_left (fun a c => 10 * a + digit_value c)%Z ds 0%Z.

(** The least number that does not fit in [w] digits. *)
Fixpoint limit (w : nat) : Z :=
  match w with
  | O => 1%Z
  | S k => (10 * limit k)%Z
  end.

(** Reads exactly [w] ASCII digits. *)
Definition take_number (w : nat) (s : str) : option (Z * str) :=
  let ds := firstn w s in
  if Nat.eqb (List.length ds) w && forallb Str.is_ascii_digit ds
  then Some (number ds, skipn w s)
  else None.

Definition expect (a : ascii) (s : str) : option str :=
  match s with
  | c :: t => if N.eqb c (N_of_ascii a) then Some t else None
  | [] => None
  end.

Definition obind {A B : Type} (m : option A) (k : A -> option B) : option B :=
  match m with Some a => k a | None => None end.

Definition in_bounds (lo hi x : Z) : bool := (lo <=? x)%Z && (x <=? hi)%Z.

Definition valid_datetimeb (d : datetime) : bool :=
  in_bounds 1 9999 (year d) && in_bounds 1 12 (month d) &&
  in_bounds 1 (days_in_month (year d) (month d)) (day d) &&
  in_bounds 0 23 (hour d) &&
  in_bounds 0 59 (minute d) && in_bounds 0 59 (second d) &&
  in_bounds 0 999999 (microsecond d).

Definition isoformat (d : datetime) : str :=
  pad 4 (year d) ++ Str.lit "-" ++ pad 2 (month d) ++ Str.lit "-" ++
  pad 2 (day d) ++ Str.lit "T" ++ pad 2 (hour d) ++ Str.lit ":" ++
  pad 2 (minute d) ++ Str.lit ":" ++ pad 2 (second d) ++
  (if (microsecond d =? 0)%Z then []
   else Str.lit "." ++ pad 6 (microsecond d)).

Definition fraction (s : str) : option Z :=
  match s with
  | [] => Some 0%Z
  | _ =>
      obind (expect "." s) (fun s =>
      obind (take_number 6 s) (fun r =>
      match snd r with [] => Some (fst r) | _ => None end))
  end.

Definition fromisoformat (s : str) : option datetime :=
  obind (take_number 4 s) (fun y =>
  obind (expect "-" (snd y)) (fun s =>
  obind (take_number 2 s) (fun mo =>
  obind (expect "-" (snd mo)) (fun s =>
  obind (take_number 2 s) (fun d =>
  obind (expect "T" (snd d)) (fun s =>
  obind (take_number 2 s) (fun h =>
  obind (expect ":" (snd h)) (fun s =>
  obind (take_number 2 s) (fun mi =>
  obind (expect ":" (snd mi)) (fun s =>
  obind (take_number 2 s) (fun se =>
  obind (fraction (snd se)) (fun us =>
  let r := mk_datetime (fst y) (fst mo) (fst d) (fst h) (fst mi) (fst se) us in
  if valid_datetimeb r then Some r else None)))))))))))).

Definition int_of_str (s : str) : option Z :=
  let s := Str.strip s in
  let '(neg, ds) :=
    match s with
    | c :: t => if N.eqb c 45%N then (true, t)
                else if N.eqb c 43%N then (false, t) else (false, s)
    | [] => (false, s)
    end in
  match ds with
  | [] => None
  | _ => if forallb Str.is_ascii_digit ds
         then Some (if neg then - number ds else number ds)%Z
         else None
  end.

#[export] Instance runtime : Runtime := {
  unicode_lower := map Str.ascii_lower_char;
  isoformat := isoformat;
  fromisoformat := fromisoformat;
  int_of_str := int_of_str;
  float_of_str := fun s => option_map inject_Z (int_of_str s)
}.

End Sample.

(** *** Entities of the examples *)

Module Eg.

(** "Иванов" *)
Definition ivanov_fio : str := [1048; 1074; 1072; 1085; 1086; 1074]%N.

Definition ivanov : Client.t :=
  Client.mk 1 ivanov_fio (Str.lit "+79991234567") (Str.lit "i@mail.ru").

(** "Ноутбук", 75000 a piece *)
Definition laptop : Product.t :=
  Product.mk [1053; 1086; 1091; 1090; 1073; 1091; 1082]%N 75000 false.

(** "Сахар", 50 a kilogram *)
Definition sugar : Product.t :=
  Product.mk [1057; 1072; 1093; 1072; 1088]%N 50 true.

(** "Рис", 80 a kilogram, and a second catalog entry of the same name *)
Definition rice : Product.t := Product.mk [1056; 1080; 1089]%N 80 true.
Definition rice_again : Product.t := Product.mk [1056; 1080; 1089]%N 90 true.



Definition may_day : datetime := mk_datetime 2024 5 1 0 0 0 0.

(** The order of the specification's example: one laptop and 3.5 kg of
    sugar. *)
Definition mixed_order : Order.t :=
  Order.mk 101 ivanov [laptop] [(sugar, (7 # 2)%Q)] may_day.

(** A stored order that names, besides the laptop and the sugar, a product
    the catalog does not have, and weighs out the laptop. *)
Definition stale_names : list str := [Product.name laptop; Str.lit "kettle"].
Definition stale_entries : list (str * Q) :=
  [ (Product.name sugar, (7 # 2)%Q); (Str.lit "salt", 2%Q);
    (Product.name laptop, 1%Q) ].

(** One order of five line items. *)
Definition five_lines : Analysis.Order :=
  Analysis.mk_order 101
    (Analysis.mk_client 1 ivanov_fio)
    [ Analysis.mk_product (Str.lit "a") 10;
      Analysis.mk_product (Str.lit "b") 20;
      Analysis.mk_product (Str.lit "c") 30;
      Analysis.mk_product (Str.lit "d") 40;
      Analysis.mk_product (Str.lit "e") 50 ]
    may_day.

(** A second client, and a repository that holds the first. *)
Definition petrov : Client.t :=
  Client.mk 2 (Str.lit "Petrov") (Str.lit "+79997654321")
    (Str.lit "p@yandex.ru").

Definition one_client_db : FileDatabase.t := FileDatabase.mk [ivanov] [] 2 1.

Definition empty_dir : FileDatabase.disk :=
  FileDatabase.mk_disk FileDatabase.Absent FileDatabase.Absent.

End Eg.

(** *** Vocabulary of the statements *)

Module Spec.




(** The clients and the orders that a sequence of calls passes to
    [add_client] and to [add_order], in call order. *)
Fixpoint clients_added (calls : list FileDatabase.call) : list Client.t :=
  match calls with
  | [] => []
  | FileDatabase.AddClient _ client :: rest => client :: clients_added rest
  | FileDatabase.AddOrder _ _ :: rest => clients_added rest
  end.

Fixpoint orders_added (calls : list FileDatabase.call) : list Order.t :=
  match calls with
  | [] => []
  | FileDatabase.AddClient _ _ :: rest => orders_added rest
  | FileDatabase.AddOrder _ order :: rest => order :: orders_added rest
  end.

(** [m] is [max(xs, default=0)]. *)
Definition greatest_or_zero (m : Z) (xs : list Z) : Prop :=
  (xs = [] /\ m = 0%Z) \/ (In m xs /\ forall x, In x xs -> (x <= m)%Z).

(** Every identifier stored in the repository is below its counter. *)
Definition ids_below_counters (db : FileDatabase.t) : Prop :=
  Forall (fun c => (Client.number c < FileDatabase.next_client_id db)%Z)
         (FileDatabase.clients db)
  /\ Forall (fun o => (Order.number o < FileDatabase.next_order_id db)%Z)
            (FileDatabase.orders db).

(** The orders document for one two-kilogram line of "Рис". *)
Definition rice_order_document : value :=
  VDict [ (Str.lit "number", VInt 1);
          (Str.lit "client_number", VInt 1);
          (Str.lit "products_list", VList []);
          (Str.lit "products_kg", VDict [(Product.name Eg.rice, VFloat 2)]);
          (Str.lit "date", VStr (Str.lit "2024-05-01T00:00:00")) ].

(** The shape [+7] followed by exactly ten decimal digits, or nothing. *)
Definition phone_form (s : str) : Prop :=
  s = [] \/
  exists ds, s = Str.lit "+7" ++ ds /\ List.length ds = 10%nat
             /\ Forall (fun c => Str.is_decimal c = true) ds.

(** The catalog entry a stored name stands for: the last one of that
    name. *)
Definition catalog_entry (catalog : list Product.t) (name : str)
  : option Product.t :=
  find (fun p => Str.eqb name (Product.name p)) (rev catalog).

(** The unit items a list of stored names yields: names without a catalog
    entry contribute nothing. *)
Definition resolve_names (catalog : list Product.t) (names : list str)
  : list Product.t :=
  flat_map (fun n => match catalog_entry catalog n with
                     | Some p => [p]
                     | None => []
                     end) names.

(** The weight items a stored weight map yields: entries without a catalog
    entry, or whose entry is not sold by weight, contribute nothing. *)
Definition resolve_weights (catalog : list Product.t)
  (entries : list (str * Q)) : list (Product.t * Q) :=
  flat_map (fun e => match catalog_entry catalog (fst e) with
                     | Some p => if Product.is_per_kg p then [(p, snd e)]
                                 else []
                     | None => []
                     end) entries.

(** A record of the orders document. *)
Definition order_document (number client_number : Z) (names : list str)
  (entries : list (str * Q)) (date : str) : value :=
  VDict [ (Str.lit "number", VInt number);
          (Str.lit "client_number", VInt client_number);
          (Str.lit "products_list", VList (map VStr names));
          (Str.lit "products_kg",
             VDict (map (fun e => (fst e, VFloat (snd e))) entries));
          (Str.lit "date", VStr date) ].

(** What the round-trip laws use of the interpreter: lower-casing is
    idempotent and leaves the white space at the ends of a string alone, and
    [fromisoformat] inverts [isoformat]. *)
Definition lawful (rt : Runtime) : Prop :=
  (forall s, lower (lower s) = lower s)
  /\ (forall s, Str.strip (lower s) = lower (Str.strip s))
  /\ (forall d, valid_datetime d -> fromisoformat (isoformat d) = Some d).

(** The order is made of catalog products (those of the weight map sold by
    weight), its weight map has distinct keys, its client is the one
    [clients_map] holds under the client's number, its date is a date. *)
Definition restorable (clients_map : list (Z * Client.t))
  (catalog : list Product.t) (o : Order.t) : Prop :=
  Dict.get Z.eqb (Client.number (Order.client o)) clients_map
  = Some (Order.client o)
  /\ Forall (fun p => In p catalog) (Order.products_list o)
  /\ Forall (fun it => In (fst it) catalog
                       /\ Product.is_per_kg (fst it) = true)
            (Order.products_kg o)
  /\ NoDup (map fst (Order.products_kg o))
  /\ valid_datetime (Order.date o).

(** The grouping key of an order's rows. *)
Definition client_of (o : Analysis.Order) : Z * str :=
  (Analysis.number (Analysis.client o), Analysis.fio (Analysis.client o)).

Definition has_items (o : Analysis.Order) : bool :=
  match Analysis.products o with [] => false | _ :: _ => true end.

(** The clients of the orders that have line items, one occurrence per
    order. *)
Definition active_clients (orders : list Analysis.Order)
  : list (Z * str) :=
  map client_of (filter has_items orders).

(** How many different order numbers the orders of client [k] that have
    line items carry. *)
Definition distinct_orders (k : Z * str) (orders : list Analysis.Order)
  : nat :=
  List.length
    (nodup Z.eq_dec
       (map Analysis.order_number
          (filter (fun o =>
                     has_items o
                     && if Analysis.client_key_eq_dec (client_of o) k
                        then true else false)
                  orders))).

(** The shape [local@domain.tld] as the e-mail pattern reads it: a
    non-empty local part over [[a-zA-Z0-9._%+-]], a non-empty domain over
    [[a-zA-Z0-9.-]] (dots included, wherever they stand), a dot, and two or
    more letters. *)
Definition email_form (s : str) : Prop :=
  exists l d t,
    s = l ++ Str.lit "@" ++ d ++ Str.lit "." ++ t
    /\ l <> [] /\ Forall (fun c => Client.local_class c = true) l
    /\ d <> [] /\ Forall (fun c => Client.domain_class c = true) d
    /\ (2 <= List.length t)%nat
    /\ Forall (fun c => Str.is_ascii_letter c = true) t.

(** The client is one that [Client] construction returns. *)
Definition constructed {rt : Runtime} (c : Client.t) : Prop :=
  exists number fio phone email, Client.init number fio phone email = Ok c.

(** A clients document whose second record carries a phone without the
    [+7] prefix. *)
Definition tampered_clients : list value :=
  [ Client.to_dict Eg.ivanov;
    VDict [ (Str.lit "number", VInt 2);
            (Str.lit "fio", VStr (Str.lit "Petrov"));
            (Str.lit "phone", VStr (Str.lit "89991234567"));
            (Str.lit "email", VStr []) ] ].

(** A stored order whose client number no client has. *)
Definition orphan_document : value :=
  order_document 7 42 Eg.stale_names Eg.stale_entries
    (Str.lit "2024-05-01T00:00:00").





(** The calendar day of an order, and the days of the orders that have
    line items. *)
Definition day_of (o : Analysis.Order) : Z * Z * Z :=
  date_of (Analysis.date o).

Definition active_days (orders : list Analysis.Order) : list (Z * Z * Z) :=
  map day_of (filter has_items orders).

(** How many different order numbers the orders of day [day] that have
    line items carry. *)
Definition orders_on (day : Z * Z * Z) (orders : list Analysis.Order)
  : nat :=
  List.length
    (nodup Z.eq_dec
       (map Analysis.order_number
          (filter (fun o =>
                     has_items o
                     && if Analysis.date_eq_dec (day_of o) day
                        then true else false)
                  orders))).

End Spec.

(** ** Part II: properties *)

(** *** Numbers *)


(** *** Binary64 *)









(** *** C1: the derived total *)



(** *** C8: identifier allocation *)

Lemma fold_left_max_bounds (l : list Z) (a : Z) :
  (a <= fold_left Z.max l a)%Z
  /\ (forall x, In x l -> (x <= fold_left Z.max l a)%Z)
  /\ (fold_left Z.max l a = a \/ In (fold_left Z.max l a) l).
Proof.
  revert a; induction l as [|y l IH]; intros a; simpl.
  - repeat split; [lia | tauto | now left].
  - destruct (IH (Z.max a y)) as (H1 & H2 & H3).
    repeat split.
    + lia.
    + intros x [<- | Hx]; [lia | now apply H2].
    + destruct H3 as [H3 | H3]; [|now right; right].
      rewrite H3. destruct (Z.max_spec a y) as [[_ E] | [_ E]]; rewrite E.
      * right; now left.
      * now left.
Qed.

Lemma max_default0_greatest (xs : list Z) :
  Spec.greatest_or_zero (FileDatabase.max_default0 xs) xs.
Proof.
  destruct xs as [|x rest]; [left; split; reflexivity|].
  right. simpl. destruct (fold_left_max_bounds rest x) as (H1 & H2 & H3).
  split.
  - destruct H3 as [-> | H3]; [now left | now right].
  - intros y [<- | Hy]; [exact H1 | now apply H2].
Qed.

Lemma greatest_or_zero_above (m : Z) (xs : list Z) :
  Spec.greatest_or_zero m xs -> Forall (fun x => (x < m + 1)%Z) xs.
Proof.
  intros [[-> _] | [_ H]]; [constructor|].
  apply Forall_forall. intros x Hx. specialize (H x Hx). lia.
Qed.

Section Repository.
Context {rt : Runtime}.

Lemma init_ids_below (d : FileDatabase.disk) :
  Spec.ids_below_counters (FileDatabase.init d).
Proof.
  unfold Spec.ids_below_counters, FileDatabase.init. simpl. split.
  - pose proof (greatest_or_zero_above
                  (max_default0_greatest
                     (map Client.number (FileDatabase._load_clients d)))) as H.
    rewrite Forall_map in H. exact H.
  - pose proof (greatest_or_zero_above
                  (max_default0_greatest
                     (map Order.number
                        (FileDatabase._load_orders d
                           (FileDatabase._load_clients d))))) as H.
    rewrite Forall_map in H. exact H.
Qed.

Lemma step_ids_below (st : FileDatabase.t * FileDatabase.disk)
  (c : FileDatabase.call) :
  Spec.ids_below_counters (fst st) ->
  Spec.ids_below_counters (fst (FileDatabase.step st c)).
Proof.
  destruct st as [db d]. intros [Hc Ho].
  destruct c as [w client | w order]; simpl.
  - unfold FileDatabase.add_client, FileDatabase._save_clients.
    destruct (FileDatabase.write w _) as [f r]. simpl.
    split; simpl.
    + apply Forall_app. split.
      * eapply Forall_impl; [|exact Hc]. simpl. intros; lia.
      * repeat constructor. lia.
    + exact Ho.
  - unfold FileDatabase.add_order, FileDatabase._save_orders.
    destruct (FileDatabase.write w _) as [f r]. simpl.
    split; simpl.
    + exact Hc.
    + apply Forall_app. split.
      * eapply Forall_impl; [|exact Ho]. simpl. intros; lia.
      * repeat constructor. lia.
Qed.

Lemma run_ids_below (calls : list FileDatabase.call)
  (st : FileDatabase.t * FileDatabase.disk) :
  Spec.ids_below_counters (fst st) ->
  Spec.ids_below_counters (fst (FileDatabase.run st calls)).
Proof.
  revert st; induction calls as [|c calls IH]; intros st H; simpl.
  - exact H.
  - apply IH. now apply step_ids_below.
Qed.

(** C8: a repository opened over any data directory starts each counter at
    [1 + max(identifiers, default 0)] of the collection it loaded, and after
    any sequence of [add_client] and [add_order] calls, whatever the numbers
    of the entities added and whether or not the writes succeed, each
    counter is strictly greater than every identifier in its collection. *)
Theorem identifier_allocation (d : FileDatabase.disk)
  (calls : list FileDatabase.call) :
  let db0 := FileDatabase.init d in
  let db := fst (FileDatabase.run (db0, d) calls) in
  Spec.greatest_or_zero (FileDatabase.next_client_id db0 - 1)
    (map Client.number (FileDatabase.clients db0))
  /\ Spec.greatest_or_zero (FileDatabase.next_order_id db0 - 1)
       (map Order.number (FileDatabase.orders db0))
  /\ Forall (fun c => (Client.number c < FileDatabase.next_client_id db)%Z)
            (FileDatabase.clients db)
  /\ Forall (fun o => (Order.number o < FileDatabase.next_order_id db)%Z)
            (FileDatabase.orders db).
Proof.
  intros db0 db.
  split; [|split].
  - subst db0. unfold FileDatabase.init. simpl.
    replace (FileDatabase.max_default0
               (map Client.number (FileDatabase._load_clients d)) + 1 - 1)%Z
      with (FileDatabase.max_default0
              (map Client.number (FileDatabase._load_clients d))) by lia.
    apply max_default0_greatest.
  - subst db0. unfold FileDatabase.init. simpl.
    match goal with
    | |- Spec.greatest_or_zero (?m + 1 - 1)%Z _ =>
        replace (m + 1 - 1)%Z with m by lia
    end.
    apply max_default0_greatest.
  - apply (run_ids_below calls (db0, d)). apply init_ids_below.
Qed.

(** *** C5: reopening the repository *)

Lemma load_orders_empty (d : FileDatabase.disk) (clients : list Client.t) :
  FileDatabase._load_orders d clients = [].
Proof.
  unfold FileDatabase._load_orders.
  destruct (FileDatabase.orders_file d) as [| |v];
    destruct clients as [|c cs]; try reflexivity.
  simpl. destruct (iterate v) as [[|o records]|e]; reflexivity.
Qed.

(** C5, what the code does: after an [add_order] whose write succeeds the
    order is in memory and in the orders document, yet a repository opened
    over the same directory holds no orders at all, because [_load_orders]
    calls [Order.from_dict] without the product catalog and turns the
    resulting [TypeError] into an empty collection. *)
Theorem reopened_repository_has_no_orders (order : Order.t)
  (db : FileDatabase.t) (d : FileDatabase.disk) :
  let after := fst (FileDatabase.add_order FileDatabase.Written order db d) in
  FileDatabase.orders (fst after) = FileDatabase.orders db ++ [order]
  /\ FileDatabase.orders_file (snd after)
     = FileDatabase.Json
         (VList (map Order.to_dict (FileDatabase.orders db ++ [order])))
  /\ FileDatabase.orders (FileDatabase.init (snd after)) = [].
Proof.
  simpl. repeat split.
  unfold FileDatabase.init. simpl. apply load_orders_empty.
Qed.

End Repository.

(** *** Dictionaries *)

Lemma str_eqb_eq (a b : str) : Str.eqb a b = true <-> a = b.
Proof.
  unfold Str.eqb. destruct (list_eq_dec N.eq_dec a b); split;
    congruence.
Qed.

Lemma str_eqb_refl (a : str) : Str.eqb a a = true.
Proof. now apply str_eqb_eq. Qed.

Lemma product_eqb_eq (a b : Product.t) : Product.eqb a b = true <-> a = b.
Proof.
  unfold Product.eqb. destruct (Product.eq_dec a b); split; congruence.
Qed.

Section DictFacts.
Variables K V : Type.
Variable eqb : K -> K -> bool.
Hypothesis eqb_eq : forall a b, eqb a b = true <-> a = b.

Lemma dict_get_set (k k' : K) (v : V) (d : Dict.t K V) :
  Dict.get eqb k (Dict.set eqb k' v d)
  = if eqb k k' then Some v else Dict.get eqb k d.
Proof.
  induction d as [|[k1 v1] d IH]; simpl.
  - reflexivity.
  - destruct (eqb k' k1) eqn:E1; simpl.
    + apply eqb_eq in E1. subst k1.
      destruct (eqb k k'); reflexivity.
    + rewrite IH. destruct (eqb k k') eqn:E2; [|reflexivity].
      destruct (eqb k k1) eqn:E3; [|reflexivity].
      apply eqb_eq in E2, E3. subst. 
      assert (eqb k1 k1 = true) by now apply eqb_eq.
      congruence.
Qed.

Lemma dict_set_fresh (k : K) (v : V) (d : Dict.t K V) :
  ~ In k (Dict.keys d) -> Dict.set eqb k v d = d ++ [(k, v)].
Proof.
  induction d as [|[k1 v1] d IH]; simpl; intros H.
  - reflexivity.
  - destruct (eqb k k1) eqn:E.
    + apply eqb_eq in E. subst. tauto.
    + rewrite IH; [reflexivity | tauto].
Qed.

Lemma comprehension_snoc (A : Type) (key : A -> K) (val : A -> V)
  (xs : list A) (x : A) :
  Dict.comprehension eqb key val (xs ++ [x])
  = Dict.set eqb (key x) (val x) (Dict.comprehension eqb key val xs).
Proof.
  unfold Dict.comprehension. now rewrite fold_left_app.
Qed.

(** A comprehension maps a key to the value of the last element that has
    it. *)
Lemma get_comprehension (A : Type) (key : A -> K) (val : A -> V)
  (xs : list A) (k : K) :
  Dict.get eqb k (Dict.comprehension eqb key val xs)
  = option_map val (find (fun x => eqb k (key x)) (rev xs)).
Proof.
  induction xs as [|x xs IH] using rev_ind.
  - reflexivity.
  - rewrite comprehension_snoc, dict_get_set, rev_app_distr. simpl.
    destruct (eqb k (key x)); [reflexivity | exact IH].
Qed.

End DictFacts.

(** *** C10: catalog resolution *)

Lemma name_to_product_last (catalog : list Product.t) (name : str) :
  Dict.get Str.eqb name (Order.name_to_product catalog)
  = find (fun p => Str.eqb name (Product.name p)) (rev catalog).
Proof.
  unfold Order.name_to_product.
  rewrite (@get_comprehension _ _ Str.eqb str_eqb_eq).
  now destruct (find _ (rev catalog)).
Qed.

(** C10, what the code does: the index built by the dict comprehension
    resolves a name to the last catalog entry that carries it; with
    "Рис" at 80 and then at 90 in the catalog, a stored weight line of
    "Рис" is deserialised as the entry priced 90, not the first one. *)
Theorem catalog_resolution_prefers_last :
  (forall (catalog : list Product.t) (name : str),
     Dict.get Str.eqb name (Order.name_to_product catalog)
     = find (fun p => Str.eqb name (Product.name p)) (rev catalog))
  /\ Dict.get Str.eqb (Product.name Eg.rice)
       (Order.name_to_product [Eg.rice; Eg.rice_again])
     = Some Eg.rice_again
  /\ Order.from_dict (rt := Sample.runtime) Spec.rice_order_document
       [(1%Z, Eg.ivanov)] [Eg.rice; Eg.rice_again]
     = Ok (Order.mk 1 Eg.ivanov [] [(Eg.rice_again, 2%Q)] Eg.may_day).
Proof.
  split; [exact name_to_product_last|].
  split; reflexivity.
Qed.

(** *** C7: reports over no orders *)

(** The emptiness test guards every selection of a column, so none of the
    four operations raises on any collection. *)
Lemma reports_never_raise (orders : list Analysis.Order) (top : option Z) :
  (exists s, Analysis.top_clients_by_orders orders top = Ok s)
  /\ (exists s, Analysis.top_clients_by_revenue orders top = Ok s)
  /\ (exists s, Analysis.top_products_by_revenue orders top = Ok s)
  /\ (exists s, Analysis.order_dynamics orders = Ok s).
Proof.
  unfold Analysis.top_clients_by_orders, Analysis.top_clients_by_revenue,
    Analysis.top_products_by_revenue, Analysis.order_dynamics.
  destruct (Analysis.orders_to_df orders) as [|r df]; simpl;
    repeat split; eexists; reflexivity.
Qed.

(** C7: on the empty order collection each of the four aggregation
    operations returns the empty series, whatever [top] is, and raises
    nothing. *)
Theorem reports_of_no_orders (top : option Z) :
  Analysis.top_clients_by_orders [] top = Ok []
  /\ Analysis.top_clients_by_revenue [] top = Ok []
  /\ Analysis.top_products_by_revenue [] top = Ok []
  /\ Analysis.order_dynamics [] = Ok [].
Proof.
  repeat split.
Qed.

(** *** Strings *)

Lemma lstrip_head (s : str) :
  match Str.lstrip s with
  | [] => True
  | c :: _ => Str.is_space c = false
  end.
Proof.
  induction s as [|c t IH]; simpl; [exact I|].
  destruct (Str.is_space c) eqn:E; [exact IH | exact E].
Qed.

Lemma lstrip_fixed (s : str) :
  match s with [] => True | c :: _ => Str.is_space c = false end ->
  Str.lstrip s = s.
Proof.
  destruct s as [|c t]; simpl; [reflexivity|]. now intros ->.
Qed.

Lemma lstrip_idempotent (s : str) : Str.lstrip (Str.lstrip s) = Str.lstrip s.
Proof. apply lstrip_fixed, lstrip_head. Qed.

Lemma lstrip_snoc (s : str) (c : char) :
  Str.is_space c = false -> Str.lstrip (s ++ [c]) = Str.lstrip s ++ [c].
Proof.
  intros Hc. induction s as [|x t IH]; simpl.
  - now rewrite Hc.
  - destruct (Str.is_space x); [exact IH | reflexivity].
Qed.

Lemma rstrip_cons (c : char) (t : str) :
  Str.is_space c = false -> Str.rstrip (c :: t) = c :: Str.rstrip t.
Proof.
  intros Hc. unfold Str.rstrip. simpl.
  rewrite lstrip_snoc by exact Hc. rewrite rev_app_distr. reflexivity.
Qed.

Lemma rstrip_idempotent (s : str) : Str.rstrip (Str.rstrip s) = Str.rstrip s.
Proof.
  unfold Str.rstrip. now rewrite rev_involutive, lstrip_idempotent.
Qed.

Lemma lstrip_strip (s : str) : Str.lstrip (Str.strip s) = Str.strip s.
Proof.
  unfold Str.strip. pose proof (lstrip_head s) as H.
  destruct (Str.lstrip s) as [|c t]; [reflexivity|].
  rewrite rstrip_cons by exact H. simpl. now rewrite H.
Qed.

Lemma rstrip_strip (s : str) : Str.rstrip (Str.strip s) = Str.strip s.
Proof. unfold Str.strip. apply rstrip_idempotent. Qed.

Lemma strip_idempotent (s : str) : Str.strip (Str.strip s) = Str.strip s.
Proof.
  unfold Str.strip at 1. rewrite lstrip_strip. apply rstrip_strip.
Qed.

Lemma lstrip_length (s : str) :
  (List.length (Str.lstrip s) <= List.length s)%nat.
Proof.
  induction s as [|c t IH]; simpl; [lia|].
  destruct (Str.is_space c); simpl; lia.
Qed.

(** A right-stripped string does not end in white space. *)
Lemma rstrip_fixed_last (s t : str) (c : char) :
  Str.rstrip s = s -> rev s = c :: t -> Str.is_space c = false.
Proof.
  unfold Str.rstrip. intros H E.
  assert (L : Str.lstrip (rev s) = rev s).
  { rewrite <- H at 2. now rewrite rev_involutive. }
  rewrite E in L. simpl in L.
  destruct (Str.is_space c) eqn:Hc; [|reflexivity].
  pose proof (lstrip_length t) as B. rewrite L in B. simpl in B. lia.
Qed.

(** *** Regular expressions: the matcher decides the language *)

Lemma nullable_matches (r : Re.regex) :
  Re.nullable r = true <-> Re.matches r [].
Proof.
  split.
  - induction r; simpl; intros H; try discriminate.
    + constructor.
    + apply andb_true_iff in H. destruct H as [H1 H2].
      change (@nil char) with (@nil char ++ []). constructor; auto.
    + apply orb_true_iff in H. destruct H as [H | H].
      * apply Re.m_alt_l; auto.
      * apply Re.m_alt_r; auto.
    + constructor.
  - intros H. remember (@nil char) as s eqn:E.
    induction H; simpl; try reflexivity; try discriminate.
    + apply app_eq_nil in E. destruct E as [-> ->].
      rewrite IHmatches1, IHmatches2; auto.
    + rewrite IHmatches; auto.
    + rewrite IHmatches; auto using orb_true_r.
Qed.

Lemma deriv_sound (c : char) (r : Re.regex) (s : str) :
  Re.matches (Re.deriv c r) s -> Re.matches r (c :: s).
Proof.
  revert s; induction r; simpl; intros s H.
  - inversion H.
  - inversion H.
  - destruct (p c) eqn:E; inversion H; subst. now constructor.
  - destruct (Re.nullable r1) eqn:N.
    + inversion H; subst.
      * match goal with
        | M : Re.matches (Re.Cat _ _) _ |- _ => inversion M; subst
        end.
        change (c :: s1 ++ s2) with ((c :: s1) ++ s2).
        constructor; auto.
      * change (c :: s) with ([] ++ c :: s).
        constructor; [now apply nullable_matches | auto].
    + inversion H; subst.
      change (c :: s1 ++ s2) with ((c :: s1) ++ s2).
      constructor; auto.
  - inversion H; subst.
    + apply Re.m_alt_l; auto.
    + apply Re.m_alt_r; auto.
  - inversion H; subst.
    change (c :: s1 ++ s2) with ((c :: s1) ++ s2).
    constructor; auto.
Qed.

Lemma deriv_complete (c : char) (r : Re.regex) (s : str) :
  Re.matches r (c :: s) -> Re.matches (Re.deriv c r) s.
Proof.
  intros H. remember (c :: s) as w eqn:E. revert c s E.
  induction H; intros c0 s0 E; simpl; try discriminate.
  - injection E as -> <-. rewrite H. constructor.
  - destruct s1 as [|x s1'].
    + simpl in E. subst s2.
      assert (N : Re.nullable r1 = true) by now apply nullable_matches.
      rewrite N. apply Re.m_alt_r. now apply IHmatches2.
    + simpl in E. injection E as -> <-.
      assert (M : Re.matches (Re.Cat (Re.deriv c0 r1) r2) (s1' ++ s2))
        by (constructor; auto).
      destruct (Re.nullable r1); [now apply Re.m_alt_l | exact M].
  - apply Re.m_alt_l; auto.
  - apply Re.m_alt_r; auto.
  - destruct s1 as [|x s1'].
    + simpl in E. now apply IHmatches2.
    + simpl in E. injection E as -> <-.
      constructor; auto.
Qed.

Lemma fullmatch_matches (r : Re.regex) (s : str) :
  Re.fullmatch r s = true <-> Re.matches r s.
Proof.
  revert r; induction s as [|c t IH]; intros r; simpl.
  - apply nullable_matches.
  - rewrite IH. split; [apply deriv_sound | apply deriv_complete].
Qed.

(** *** C4: phone validation *)

Lemma matches_chr (a : ascii) (s : str) :
  Re.matches (Re.Chr a) s <-> s = [N_of_ascii a].
Proof.
  unfold Re.Chr. split.
  - intros H. inversion H; subst.
    match goal with
    | E : N.eqb _ _ = true |- _ => apply N.eqb_eq in E; now rewrite E
    end.
  - intros ->. constructor. apply N.eqb_refl.
Qed.

Lemma matches_rep_cls (p : char -> bool) (n : nat) (s : str) :
  Re.matches (Re.Rep n (Re.Cls p)) s
  <-> List.length s = n /\ Forall (fun c => p c = true) s.
Proof.
  revert s; induction n as [|n IH]; intros s; simpl.
  - split.
    + intros H. inversion H; subst. split; [reflexivity | constructor].
    + intros [L _]. destruct s; [constructor | discriminate].
  - split.
    + intros H. inversion H; subst.
      match goal with M : Re.matches (Re.Cls _) _ |- _ =>
        inversion M; subst end.
      match goal with M : Re.matches (Re.Rep _ _) _ |- _ =>
        apply IH in M; destruct M as [L F] end.
      simpl. split; [now rewrite L | now constructor].
    + intros [L F]. destruct s as [|c t]; [discriminate|].
      inversion F; subst. injection L as L.
      change (c :: t) with ([c] ++ t). constructor.
      * now constructor.
      * apply IH. now split.
Qed.

Lemma matches_cat_inv (r1 r2 : Re.regex) (s : str) :
  Re.matches (Re.Cat r1 r2) s ->
  exists s1 s2, s = s1 ++ s2 /\ Re.matches r1 s1 /\ Re.matches r2 s2.
Proof.
  intros H. inversion H; subst. eauto.
Qed.

Lemma matches_phone_pattern (s : str) :
  Re.matches Client.phone_pattern s
  <-> exists ds, s = Str.lit "+7" ++ ds /\ List.length ds = 10%nat
                 /\ Forall (fun c => Str.is_decimal c = true) ds.
Proof.
  unfold Client.phone_pattern. split.
  - intros H.
    apply matches_cat_inv in H. destruct H as (s1 & s2 & -> & H1 & H).
    apply matches_cat_inv in H. destruct H as (s3 & s4 & -> & H2 & H).
    apply matches_chr in H1, H2. subst s1 s3.
    apply matches_rep_cls in H. destruct H as [L F].
    exists s4. split; [reflexivity | now split].
  - intros (ds & -> & L & F).
    change (Str.lit "+7" ++ ds)
      with ([N_of_ascii "+"] ++ ([N_of_ascii "7"] ++ ds)).
    constructor; [now apply matches_chr|].
    constructor; [now apply matches_chr|].
    apply matches_rep_cls. now split.
Qed.

Lemma match_anchored_rstripped (r : Re.regex) (s : str) :
  Str.rstrip s = s -> Re.match_anchored r s = Re.fullmatch r s.
Proof.
  intros H. unfold Re.match_anchored.
  destruct (rev s) as [|c t] eqn:E; [apply orb_false_r|].
  pose proof (@rstrip_fixed_last s t c H E) as Hc.
  destruct (N.eqb c 10) eqn:N; [|apply orb_false_r].
  apply N.eqb_eq in N. subst c. discriminate Hc.
Qed.

(** The phone test of [validate] on a stripped string. *)
Lemma phone_test_stripped (p : str) :
  Str.rstrip p = p ->
  (Client.nonempty p
   && negb (Re.match_anchored Client.phone_pattern p) = false
   <-> Spec.phone_form p).
Proof.
  intros H. rewrite match_anchored_rstripped by exact H.
  unfold Spec.phone_form. split.
  - intros B. apply andb_false_iff in B. destruct B as [B | B].
    + left. destruct p; [reflexivity | discriminate].
    + right. apply negb_false_iff in B.
      now apply matches_phone_pattern, fullmatch_matches.
  - intros [-> | F]; [reflexivity|].
    apply andb_false_iff. right. apply negb_false_iff.
    now apply fullmatch_matches, matches_phone_pattern.
Qed.

Lemma lower_nil (rt : Runtime) : lower [] = [].
Proof. reflexivity. Qed.

(** C4, as the code has it: construction strips the phone first; it raises
    the phone error, echoing the stripped value, exactly when the stripped
    phone is neither empty nor [+7] followed by ten characters of the
    pattern class [\d] (decimal digits); with no e-mail, construction
    succeeds exactly in the other case. *)
Theorem phone_validation (rt : Runtime) (n : Z) (fio phone email : str) :
  (Client.new n fio phone email
   = Raise (ValueError (BadPhone (Str.strip phone)))
   <-> ~ Spec.phone_form (Str.strip phone))
  /\ ((exists c, Client.new n fio phone [] = Ok c)
      <-> Spec.phone_form (Str.strip phone)).
Proof.
  pose proof (@phone_test_stripped _ (rstrip_strip phone)) as T.
  unfold Client.new, Client.init, Client.validate. simpl.
  destruct (Client.nonempty (Str.strip phone)
            && negb (Re.match_anchored Client.phone_pattern
                       (Str.strip phone))) eqn:B; simpl.
  - assert (NF : ~ Spec.phone_form (Str.strip phone)).
    { intros F. apply T in F. discriminate F. }
    split; split; auto.
    + intros [c Hc]. discriminate Hc.
    + intros F. contradiction.
  - assert (F : Spec.phone_form (Str.strip phone)) by now apply T.
    split; split.
    + intros E. exfalso.
      destruct (Client.nonempty (lower (Str.strip email))
                && negb (Re.match_anchored Client.email_pattern
                           (lower (Str.strip email))));
        simpl in E; discriminate E.
    + intros NF. contradiction.
    + intros _. exact F.
    + intros _. eexists. reflexivity.
Qed.

(** C4, the sentence as the specification words it fails: a phone with a
    leading space is not of the form [+7] and ten digits (it has thirteen
    characters), yet construction succeeds and stores the stripped
    number. *)
Lemma padded_phone_counterexample :
  Client.new (rt := Sample.runtime) 1 Eg.ivanov_fio
    (Str.lit " +79991234567") []
  = Ok (Client.mk 1 Eg.ivanov_fio (Str.lit "+79991234567") [])
  /\ ~ Spec.phone_form (Str.lit " +79991234567").
Proof.
  split; [reflexivity|].
  intros [E | (ds & E & _)]; discriminate E.
Qed.

(** *** C3: e-mail validation *)

Lemma matches_star_cls (p : char -> bool) (s : str) :
  Re.matches (Re.Star (Re.Cls p)) s <-> Forall (fun c => p c = true) s.
Proof.
  split.
  - intros H. remember (Re.Star (Re.Cls p)) as r eqn:E.
    induction H; try discriminate.
    + constructor.
    + injection E as ->.
      match goal with M : Re.matches (Re.Cls _) _ |- _ =>
        inversion M; subst end.
      simpl. constructor; auto.
  - intros F. induction F as [|c t Hc F IH].
    + constructor.
    + change (c :: t) with ([c] ++ t). constructor; [now constructor | auto].
Qed.

Lemma matches_plus_cls (p : char -> bool) (s : str) :
  Re.matches (Re.Plus (Re.Cls p)) s
  <-> s <> [] /\ Forall (fun c => p c = true) s.
Proof.
  unfold Re.Plus. split.
  - intros H. apply matches_cat_inv in H.
    destruct H as (s1 & s2 & -> & H1 & H2).
    inversion H1; subst. apply matches_star_cls in H2.
    split; [discriminate | now constructor].
  - intros [N F]. destruct s as [|c t]; [contradiction|].
    inversion F; subst.
    change (c :: t) with ([c] ++ t).
    constructor; [now constructor | now apply matches_star_cls].
Qed.

Lemma matches_atleast_cls (p : char -> bool) (n : nat) (s : str) :
  Re.matches (Re.AtLeast n (Re.Cls p)) s
  <-> (n <= List.length s)%nat /\ Forall (fun c => p c = true) s.
Proof.
  unfold Re.AtLeast. split.
  - intros H. apply matches_cat_inv in H.
    destruct H as (s1 & s2 & -> & H1 & H2).
    apply matches_rep_cls in H1. destruct H1 as [L F1].
    apply matches_star_cls in H2.
    split; [rewrite length_app; lia | now apply Forall_app].
  - intros [L F]. rewrite <- (firstn_skipn n s) in F |- *.
    apply Forall_app in F. destruct F as [F1 F2].
    constructor.
    + apply matches_rep_cls. split; [|exact F1].
      rewrite length_firstn. lia.
    + now apply matches_star_cls.
Qed.

Lemma matches_email_pattern (s : str) :
  Re.matches Client.email_pattern s <-> Spec.email_form s.
Proof.
  unfold Client.email_pattern, Spec.email_form. split.
  - intros H.
    apply matches_cat_inv in H. destruct H as (l & r1 & -> & Hl & H).
    apply matches_cat_inv in H. destruct H as (a & r2 & -> & Ha & H).
    apply matches_cat_inv in H. destruct H as (d & r3 & -> & Hd & H).
    apply matches_cat_inv in H. destruct H as (b & t & -> & Hb & Ht).
    apply matches_chr in Ha, Hb. subst a b.
    apply matches_plus_cls in Hl, Hd. apply matches_atleast_cls in Ht.
    exists l, d, t. intuition.
  - intros (l & d & t & -> & Nl & Fl & Nd & Fd & Lt & Ft).
    constructor; [now apply matches_plus_cls|].
    constructor; [now apply matches_chr|].
    constructor; [now apply matches_plus_cls|].
    constructor; [now apply matches_chr|].
    now apply matches_atleast_cls.
Qed.

(** The e-mail test of [validate] on a stripped string. *)
Lemma email_test_stripped (e : str) :
  Str.rstrip e = e ->
  (Client.nonempty e
   && negb (Re.match_anchored Client.email_pattern e) = false
   <-> e = [] \/ Spec.email_form e).
Proof.
  intros H. rewrite match_anchored_rstripped by exact H. split.
  - intros B. apply andb_false_iff in B. destruct B as [B | B].
    + left. destruct e; [reflexivity | discriminate].
    + right. apply negb_false_iff in B.
      now apply matches_email_pattern, fullmatch_matches.
  - intros [-> | F]; [reflexivity|].
    apply andb_false_iff. right. apply negb_false_iff.
    now apply fullmatch_matches, matches_email_pattern.
Qed.

(** C3, what the code does: [Client] construction accepts
    "user@mail..com" and "test@mail..ru", because the domain class of the
    pattern contains the dot; the other malformed addresses of the
    specification are rejected and the empty address is accepted.  In
    general a stored address passes the check exactly when it is empty or
    of the shape [local@domain.tld] in which the domain is any non-empty
    string of letters, digits, dots and hyphens. *)
Theorem email_with_consecutive_dots_is_accepted (rt : Runtime) :
  Client.new 1 Eg.ivanov_fio (Str.lit "+79991234567")
    (Str.lit "user@mail..com")
  = Ok (Client.mk 1 Eg.ivanov_fio (Str.lit "+79991234567")
          (Str.lit "user@mail..com"))
  /\ Client.new 1 Eg.ivanov_fio (Str.lit "+79991234567")
       (Str.lit "test@mail..ru")
     = Ok (Client.mk 1 Eg.ivanov_fio (Str.lit "+79991234567")
             (Str.lit "test@mail..ru"))
  /\ Client.new 1 Eg.ivanov_fio (Str.lit "+79991234567") (Str.lit "test@")
     = Raise (ValueError (BadEmail (Str.lit "test@")))
  /\ Client.new 1 Eg.ivanov_fio (Str.lit "+79991234567") (Str.lit "@mail.ru")
     = Raise (ValueError (BadEmail (Str.lit "@mail.ru")))
  /\ Client.new 1 Eg.ivanov_fio (Str.lit "+79991234567")
       (Str.lit "user@@mail.ru")
     = Raise (ValueError (BadEmail (Str.lit "user@@mail.ru")))
  /\ Client.new 1 Eg.ivanov_fio (Str.lit "+79991234567") []
     = Ok (Client.mk 1 Eg.ivanov_fio (Str.lit "+79991234567") [])
  /\ (forall (n : Z) (fio e : str),
        Str.rstrip e = e ->
        (Client.validate (Client.mk n fio [] e) = Ok tt
         <-> e = [] \/ Spec.email_form e)).
Proof.
  repeat (split; [vm_compute; reflexivity|]).
  intros n fio e H. pose proof (@email_test_stripped e H) as T.
  unfold Client.validate. simpl.
  destruct (Client.nonempty e
            && negb (Re.match_anchored Client.email_pattern e)) eqn:B.
  - split; [discriminate|]. intros F. apply T in F. discriminate F.
  - split; [intros _; now apply T | reflexivity].
Qed.

(** *** C9: what [Order.from_dict] keeps and what it drops *)

Ltac bind_inv H :=
  repeat match type of H with
  | bind ?m _ = Ok _ =>
      let E := fresh "E" in
      destruct m eqn:E; simpl in H; [|discriminate H]
  end.

Lemma index_entry (catalog : list Product.t) (name : str) :
  Dict.get Str.eqb name (Order.name_to_product catalog)
  = Spec.catalog_entry catalog name.
Proof. apply name_to_product_last. Qed.

Lemma catalog_entry_name (catalog : list Product.t) (name : str)
  (p : Product.t) :
  Spec.catalog_entry catalog name = Some p -> Product.name p = name.
Proof.
  unfold Spec.catalog_entry. intros H.
  apply find_some in H. destruct H as [_ H].
  apply str_eqb_eq in H. now symmetry.
Qed.

Section FromDict.
Context {rt : Runtime}.

Lemma resolve_list_names (catalog : list Product.t) (names : list str)
  (acc : list Product.t) :
  Order.resolve_list (Order.name_to_product catalog) (map VStr names) acc
  = Ok (acc ++ Spec.resolve_names catalog names).
Proof.
  revert acc; induction names as [|n names IH]; intros acc; simpl.
  - now rewrite app_nil_r.
  - rewrite index_entry.
    destruct (Spec.catalog_entry catalog n) as [p|].
    + rewrite IH, <- app_assoc. reflexivity.
    + apply IH.
Qed.

Lemma forall_dict_set (P : Product.t * Q -> Prop) (p : Product.t) (w : Q)
  (d : list (Product.t * Q)) :
  (forall w', P (p, w')) -> Forall P d ->
  Forall P (Dict.set Product.eqb p w d).
Proof.
  intros Hp. induction d as [|[k v] d IH]; simpl; intros F.
  - constructor; [apply Hp | constructor].
  - inversion F; subst.
    destruct (Product.eqb p k) eqn:E.
    + apply product_eqb_eq in E. subst k. constructor; [apply Hp | assumption].
    + constructor; auto.
Qed.

Lemma resolve_kg_per_kg (index : list (str * Product.t))
  (entries : list (str * value)) (acc r : list (Product.t * Q)) :
  Forall (fun it => Product.is_per_kg (fst it) = true) acc ->
  Order.resolve_kg index entries acc = Ok r ->
  Forall (fun it => Product.is_per_kg (fst it) = true) r.
Proof.
  revert acc; induction entries as [|[n kg] entries IH]; intros acc F H;
    simpl in H.
  - now injection H as <-.
  - destruct (Dict.get Str.eqb n index) as [p|]; [|eauto].
    destruct (Product.is_per_kg p) eqn:K; [|eauto].
    destruct (py_float kg) as [w|] eqn:W; simpl in H; [|discriminate H].
    eapply IH; [|exact H]. apply forall_dict_set; auto.
Qed.

Lemma resolve_kg_weights (catalog : list Product.t)
  (entries : list (str * Q)) (acc : list (Product.t * Q)) :
  NoDup (map (fun it => Product.name (fst it)) acc ++ map fst entries) ->
  Order.resolve_kg (Order.name_to_product catalog)
    (map (fun e => (fst e, VFloat (snd e))) entries) acc
  = Ok (acc ++ Spec.resolve_weights catalog entries).
Proof.
  revert acc; induction entries as [|[n w] entries IH]; intros acc D; simpl.
  - now rewrite app_nil_r.
  - rewrite index_entry.
    assert (D' : NoDup (map (fun it => Product.name (fst it)) acc
                        ++ map fst entries)).
    { apply NoDup_remove_1 in D. exact D. }
    destruct (Spec.catalog_entry catalog n) as [p|] eqn:E; [|now apply IH].
    destruct (Product.is_per_kg p) eqn:K; [|now apply IH].
    simpl. pose proof (@catalog_entry_name catalog n p E) as Np.
    assert (Fresh : ~ In p (Dict.keys acc)).
    { intros I. apply NoDup_remove_2 in D. apply D.
      apply in_or_app. left. unfold Dict.keys in I.
      apply in_map_iff in I. destruct I as ([q v] & <- & I).
      apply in_map_iff. exists (q, v). split; [exact Np | exact I]. }
    rewrite (@dict_set_fresh _ _ Product.eqb product_eqb_eq p w acc Fresh).
    rewrite IH.
    + now rewrite <- app_assoc.
    + rewrite map_app, <- app_assoc. simpl. rewrite Np. exact D.
Qed.

Lemma from_dict_per_kg (data : value) (clients_map : list (Z * Client.t))
  (catalog : list Product.t) (o : Order.t) :
  Order.from_dict data clients_map catalog = Ok o ->
  Forall (fun it => Product.is_per_kg (fst it) = true) (Order.products_kg o).
Proof.
  intros H. unfold Order.from_dict in H.
  bind_inv H. unfold Order.init in H. bind_inv H.
  injection H as <-. simpl.
  eapply resolve_kg_per_kg; [|eassumption]. constructor.
Qed.

Lemma from_dict_document (clients_map : list (Z * Client.t))
  (catalog : list Product.t) (n key : Z) (names : list str)
  (entries : list (str * Q)) (ds : str) (c : Client.t) (d : datetime) :
  Dict.get Z.eqb key clients_map = Some c ->
  fromisoformat ds = Some d ->
  NoDup (map fst entries) ->
  Order.from_dict (Spec.order_document n key names entries ds)
    clients_map catalog
  = Ok (Order.mk n c (Spec.resolve_names catalog names)
          (Spec.resolve_weights catalog entries) d).
Proof.
  intros Hc Hd Hn.
  unfold Order.from_dict, Spec.order_document.
  change (item _ "client_number") with (Ok (VInt key)).
  cbn [bind]. unfold Order.lookup_client. cbn [int_key bind].
  rewrite Hc.
  change (get_default _ "products_list" _)
    with (Ok (VList (map VStr names))).
  cbn [bind iterate]. rewrite resolve_list_names.
  change (get_default _ "products_kg" _)
    with (Ok (VDict (map (fun e => (fst e, VFloat (snd e))) entries))).
  cbn [bind items]. rewrite resolve_kg_weights by exact Hn.
  change (item _ "date") with (Ok (VStr ds)).
  cbn [bind Order.parse_date]. rewrite Hd.
  change (item _ "number") with (Ok (VInt n)).
  cbn [bind Order.init py_int app]. reflexivity.
Qed.

(** C9: every order that [Order.from_dict] returns has only per-kg products
    as keys of [products_kg]; and on a record of the orders document, whose
    client and date resolve, it returns without raising the order whose unit
    items are the stored names that have a catalog entry and whose weight
    items are the stored entries whose catalog entry is sold by weight:
    all other names and entries are dropped. *)
Theorem from_dict_drops_unresolved (clients_map : list (Z * Client.t))
  (catalog : list Product.t) :
  (forall (data : value) (o : Order.t),
     Order.from_dict data clients_map catalog = Ok o ->
     Forall (fun it => Product.is_per_kg (fst it) = true)
            (Order.products_kg o))
  /\ (forall (n key : Z) (names : list str) (entries : list (str * Q))
             (ds : str) (c : Client.t) (d : datetime),
        Dict.get Z.eqb key clients_map = Some c ->
        fromisoformat ds = Some d ->
        NoDup (map fst entries) ->
        Order.from_dict (Spec.order_document n key names entries ds)
          clients_map catalog
        = Ok (Order.mk n c (Spec.resolve_names catalog names)
                (Spec.resolve_weights catalog entries) d)
        /\ Forall (fun it => Product.is_per_kg (fst it) = true)
                  (Spec.resolve_weights catalog entries)).
Proof.
  split.
  - intros data o. apply from_dict_per_kg.
  - intros n key names entries ds c d Hc Hd Hn.
    pose proof (@from_dict_document clients_map catalog n key names entries
                  ds c d Hc Hd Hn) as R.
    split; [exact R|].
    apply from_dict_per_kg in R. exact R.
Qed.

End FromDict.

(** *** C2: round trips *)

Lemma nodup_map_injective (A B : Type) (f : A -> B) (l : list A) (x y : A) :
  NoDup (map f l) -> In x l -> In y l -> f x = f y -> x = y.
Proof.
  induction l as [|a l IH]; simpl; intros D Hx Hy E; [contradiction|].
  inversion D as [|? ? Na D']; subst.
  destruct Hx as [-> | Hx], Hy as [-> | Hy]; auto.
  - exfalso. apply Na. rewrite E. now apply in_map.
  - exfalso. apply Na. rewrite <- E. now apply in_map.
Qed.

Lemma nodup_map_on (A B : Type) (f : A -> B) (l : list A) :
  NoDup l -> (forall x y, In x l -> In y l -> f x = f y -> x = y) ->
  NoDup (map f l).
Proof.
  induction l as [|a l IH]; simpl; intros D I; [constructor|].
  inversion D as [|? ? Na D']; subst. constructor.
  - intros M. apply in_map_iff in M. destruct M as (b & E & Hb).
    assert (b = a) by (apply I; auto). subst b. contradiction.
  - apply IH; auto.
Qed.

Lemma catalog_entry_in (catalog : list Product.t) (p : Product.t) :
  NoDup (map Product.name catalog) -> In p catalog ->
  Spec.catalog_entry catalog (Product.name p) = Some p.
Proof.
  intros D I. unfold Spec.catalog_entry.
  destruct (find _ (rev catalog)) as [q|] eqn:F.
  - apply find_some in F. destruct F as [Hq E].
    apply in_rev in Hq. apply str_eqb_eq in E.
    f_equal. symmetry. eapply nodup_map_injective; eauto.
  - apply find_none with (x := p) in F; [|now apply in_rev in I].
    now rewrite str_eqb_refl in F.
Qed.

Lemma resolve_names_catalog (catalog : list Product.t)
  (l : list Product.t) :
  NoDup (map Product.name catalog) -> Forall (fun p => In p catalog) l ->
  Spec.resolve_names catalog (map Product.name l) = l.
Proof.
  intros D F. induction F as [|p l Hp F IH]; simpl; [reflexivity|].
  rewrite catalog_entry_in by assumption. simpl. now rewrite IH.
Qed.

Lemma resolve_weights_catalog (catalog : list Product.t)
  (kg : list (Product.t * Q)) :
  NoDup (map Product.name catalog) ->
  Forall (fun it => In (fst it) catalog
                    /\ Product.is_per_kg (fst it) = true) kg ->
  Spec.resolve_weights catalog
    (map (fun it => (Product.name (fst it), snd it)) kg) = kg.
Proof.
  intros D F. induction F as [|[p w] l [Hp K] F IH]; simpl; [reflexivity|].
  simpl in Hp, K. rewrite catalog_entry_in by assumption.
  rewrite K. simpl. now rewrite IH.
Qed.

Lemma comprehension_distinct (A K V : Type) (eqb : K -> K -> bool)
  (key : A -> K) (val : A -> V) (xs : list A) :
  (forall a b, eqb a b = true <-> a = b) ->
  NoDup (map key xs) ->
  Dict.comprehension eqb key val xs = map (fun x => (key x, val x)) xs.
Proof.
  intros eqb_eq. induction xs as [|x xs IH] using rev_ind; intros D.
  - reflexivity.
  - rewrite comprehension_snoc, map_app. simpl.
    rewrite map_app in D. simpl in D.
    assert (D1 : NoDup (map key xs)) by (eapply NoDup_app_remove_r; eauto).
    rewrite IH by exact D1.
    apply dict_set_fresh; [exact eqb_eq|].
    unfold Dict.keys. rewrite map_map. simpl.
    intros I. apply NoDup_remove_2 in D. rewrite app_nil_r in D. auto.
Qed.

Lemma weight_names_distinct (catalog : list Product.t)
  (kg : list (Product.t * Q)) :
  NoDup (map Product.name catalog) ->
  Forall (fun it => In (fst it) catalog
                    /\ Product.is_per_kg (fst it) = true) kg ->
  NoDup (map fst kg) ->
  NoDup (map (fun it => Product.name (fst it)) kg).
Proof.
  intros D F N. rewrite <- (map_map fst Product.name).
  apply nodup_map_on; [exact N|].
  intros x y Hx Hy E.
  rewrite Forall_forall in F.
  apply in_map_iff in Hx, Hy.
  destruct Hx as (a & <- & Ha), Hy as (b & <- & Hb).
  eapply nodup_map_injective; eauto; now apply F.
Qed.

Section RoundTrip.
Context {rt : Runtime}.
Hypothesis laws : Spec.lawful rt.

Lemma client_round_trip (number fio phone email : value) (c : Client.t) :
  Client.init number fio phone email = Ok c ->
  Client.from_dict (Client.to_dict c) = Ok c.
Proof.
  destruct laws as (L1 & L2 & _).
  intros H. unfold Client.init in H. bind_inv H. injection H as <-.
  destruct fio as [| | | |sf| |]; try discriminate.
  destruct phone as [| | | |sp| |]; try discriminate.
  destruct email as [| | | |se| |]; try discriminate.
  simpl in *.
  match goal with E : Ok _ = Ok a0 |- _ => injection E as <- end.
  match goal with E : Ok _ = Ok a1 |- _ => injection E as <- end.
  match goal with E : Ok _ = Ok a2 |- _ => injection E as <- end.
  unfold Client.from_dict, Client.to_dict.
  change (item _ "number") with (Ok (VInt a)).
  change (item _ "fio") with (Ok (VStr (Str.strip sf))).
  change (get_default _ "phone" _) with (Ok (VStr (Str.strip sp))).
  change (get_default _ "email" _) with (Ok (VStr (lower (Str.strip se)))).
  cbn [bind]. unfold Client.init. cbn [py_int py_strip bind].
  rewrite !strip_idempotent, L2, strip_idempotent, L1.
  match goal with E : Client.validate _ = Ok _ |- _ => rewrite E end.
  reflexivity.
Qed.

Lemma product_round_trip (name price is_per_kg : value) (p : Product.t) :
  Product.init name price is_per_kg = Ok p ->
  Product.from_dict (Product.to_dict p) = Ok p.
Proof.
  intros H. unfold Product.init in H. bind_inv H. injection H as <-.
  destruct name as [| | | |sn| |]; try discriminate.
  simpl in *.
  match goal with E : Ok _ = Ok a |- _ => injection E as <- end.
  unfold Product.from_dict, Product.to_dict.
  change (item _ "name") with (Ok (VStr (Str.strip sn))).
  change (item _ "price") with (Ok (VFloat a0)).
  change (get_default _ "is_per_kg" _) with (Ok (VBool (truthy is_per_kg))).
  cbn [bind]. unfold Product.init. cbn [py_strip py_float bind truthy].
  now rewrite strip_idempotent.
Qed.

Lemma order_to_dict_document (o : Order.t) :
  NoDup (map (fun it => Product.name (fst it)) (Order.products_kg o)) ->
  Order.to_dict o
  = Spec.order_document (Order.number o)
      (Client.number (Order.client o))
      (map Product.name (Order.products_list o))
      (map (fun it => (Product.name (fst it), snd it)) (Order.products_kg o))
      (isoformat (Order.date o)).
Proof.
  intros D. unfold Order.to_dict, Spec.order_document.
  rewrite comprehension_distinct; [|exact str_eqb_eq|exact D].
  now rewrite !map_map.
Qed.

Lemma order_round_trip (clients_map : list (Z * Client.t))
  (catalog : list Product.t) (o : Order.t) :
  NoDup (map Product.name catalog) ->
  Spec.restorable clients_map catalog o ->
  Order.from_dict (Order.to_dict o) clients_map catalog = Ok o.
Proof.
  destruct laws as (_ & _ & L3).
  intros D (Hc & Hl & Hk & Hn & Hd).
  pose proof (@weight_names_distinct catalog (Order.products_kg o) D Hk Hn)
    as Dn.
  rewrite (@order_to_dict_document o Dn).
  rewrite (@from_dict_document _ clients_map catalog (Order.number o)
             (Client.number (Order.client o))
             (map Product.name (Order.products_list o))
             (map (fun it => (Product.name (fst it), snd it))
                  (Order.products_kg o))
             (isoformat (Order.date o)) (Order.client o) (Order.date o)
             Hc (L3 _ Hd)).
  - rewrite resolve_names_catalog, resolve_weights_catalog by assumption.
    now destruct o.
  - now rewrite map_map.
Qed.

End RoundTrip.

(** C2: under the laws of the interpreter's library, [from_dict] undoes
    [to_dict]: for every client that construction accepts, all four fields
    come back; for every product, name, price and flag come back; and for
    every order made of catalog products, over a catalog with unique names
    and a clients map holding its client, [Order.from_dict] returns an order
    with the same number, client, unit items in order, weight map and date,
    hence the same [total_cost]. *)
Theorem from_dict_inverts_to_dict (rt : Runtime) :
  Spec.lawful rt ->
  (forall (number fio phone email : value) (c : Client.t),
     Client.init number fio phone email = Ok c ->
     Client.from_dict (Client.to_dict c) = Ok c)
  /\ (forall (name price is_per_kg : value) (p : Product.t),
        Product.init name price is_per_kg = Ok p ->
        Product.from_dict (Product.to_dict p) = Ok p)
  /\ (forall (clients_map : list (Z * Client.t))
             (catalog : list Product.t) (o : Order.t),
        NoDup (map Product.name catalog) ->
        Spec.restorable clients_map catalog o ->
        exists o',
          Order.from_dict (Order.to_dict o) clients_map catalog = Ok o'
          /\ Order.number o' = Order.number o
          /\ Order.client o' = Order.client o
          /\ Order.products_list o' = Order.products_list o
          /\ Order.products_kg o' = Order.products_kg o
          /\ Order.date o' = Order.date o
          /\ Order.total_cost o' = Order.total_cost o).
Proof.
  intros laws. split; [|split].
  - intros. eapply client_round_trip; eauto.
  - intros. eapply product_round_trip; eauto.
  - intros cm cat o D R. exists o.
    split; [now apply order_round_trip|]. repeat split.
Qed.

(** *** The sample runtime obeys the laws *)

Lemma sample_lower (s : str) :
  lower (rt := Sample.runtime) s = map Str.ascii_lower_char s.
Proof. unfold lower. now destruct (forallb Str.is_ascii s). Qed.

Lemma in_range_false (lo hi c : char) :
  (c < lo)%N \/ (hi < c)%N -> Str.in_range lo hi c = false.
Proof.
  intros H. unfold Str.in_range. apply andb_false_iff.
  destruct H as [H | H]; [left | right]; now apply N.leb_gt.
Qed.

Lemma in_range_true (lo hi c : char) :
  (lo <= c <= hi)%N -> Str.in_range lo hi c = true.
Proof.
  intros [H1 H2]. unfold Str.in_range. apply andb_true_iff.
  split; now apply N.leb_le.
Qed.

Lemma in_range_bounds (lo hi c : char) :
  Str.in_range lo hi c = true -> (lo <= c <= hi)%N.
Proof.
  unfold Str.in_range. intros H. apply andb_true_iff in H.
  destruct H as [H1 H2]. apply N.leb_le in H1, H2. now split.
Qed.

Lemma letters_are_not_space (c : char) :
  (33 <= c <= 132)%N -> Str.is_space c = false.
Proof.
  intros H. unfold Str.is_space, Str.in_ranges, Str.space_ranges.
  cbn [existsb fst snd].
  repeat (apply orb_false_intro); try reflexivity;
    apply in_range_false; lia.
Qed.

Lemma ascii_lower_char_idempotent (c : char) :
  Str.ascii_lower_char (Str.ascii_lower_char c) = Str.ascii_lower_char c.
Proof.
  unfold Str.ascii_lower_char.
  destruct (Str.is_ascii_upper c) eqn:U; [|now rewrite U].
  apply in_range_bounds in U.
  unfold Str.is_ascii_upper. rewrite in_range_false; [reflexivity | lia].
Qed.

Lemma ascii_lower_char_space (c : char) :
  Str.is_space (Str.ascii_lower_char c) = Str.is_space c.
Proof.
  unfold Str.ascii_lower_char.
  destruct (Str.is_ascii_upper c) eqn:U; [|reflexivity].
  apply in_range_bounds in U.
  rewrite !letters_are_not_space; [reflexivity | lia | lia].
Qed.

Lemma lstrip_map (f : char -> char) (s : str) :
  (forall c, Str.is_space (f c) = Str.is_space c) ->
  Str.lstrip (map f s) = map f (Str.lstrip s).
Proof.
  intros H. induction s as [|c t IH]; simpl; [reflexivity|].
  rewrite H. destruct (Str.is_space c); [exact IH | reflexivity].
Qed.

Lemma strip_map (f : char -> char) (s : str) :
  (forall c, Str.is_space (f c) = Str.is_space c) ->
  Str.strip (map f s) = map f (Str.strip s).
Proof.
  intros H. unfold Str.strip, Str.rstrip.
  rewrite lstrip_map by exact H.
  rewrite <- map_rev, lstrip_map by exact H.
  now rewrite map_rev.
Qed.

Lemma pad_length (w : nat) (n : Z) : List.length (Sample.pad w n) = w.
Proof.
  revert n; induction w as [|w IH]; intros n; simpl; [reflexivity|].
  rewrite length_app, IH. simpl. lia.
Qed.

Lemma digit_is_ascii_digit (d : Z) :
  (0 <= d <= 9)%Z -> Str.is_ascii_digit (Sample.digit d) = true.
Proof.
  intros H. unfold Str.is_ascii_digit, Sample.digit.
  apply in_range_true. lia.
Qed.

Lemma pad_digits (w : nat) (n : Z) :
  forallb Str.is_ascii_digit (Sample.pad w n) = true.
Proof.
  revert n; induction w as [|w IH]; intros n; simpl; [reflexivity|].
  rewrite forallb_app, IH. simpl.
  rewrite digit_is_ascii_digit; [reflexivity|].
  pose proof (Z.mod_pos_bound n 10 ltac:(lia)). lia.
Qed.

Lemma number_pad (w : nat) (n : Z) :
  (0 <= n < Sample.limit w)%Z -> Sample.number (Sample.pad w n) = n.
Proof.
  unfold Sample.number.
  revert n; induction w as [|w IH]; intros n H; cbn [Sample.limit] in H;
    cbn [Sample.pad]; [cbn [fold_left]; lia|].
  rewrite fold_left_app. cbn [fold_left]. rewrite IH.
  - unfold Sample.digit_value, Sample.digit.
    pose proof (Z.mod_pos_bound n 10 ltac:(lia)).
    pose proof (Z.div_mod n 10 ltac:(lia)).
    rewrite Z2N.id by lia. lia.
  - split.
    + apply Z.div_pos; lia.
    + apply Z.div_lt_upper_bound; lia.
Qed.

Lemma take_number_pad (w : nat) (n : Z) (rest : str) :
  (0 <= n < Sample.limit w)%Z ->
  Sample.take_number w (Sample.pad w n ++ rest) = Some (n, rest).
Proof.
  intros H. unfold Sample.take_number.
  pose proof (pad_length w n) as L.
  replace (firstn w (Sample.pad w n ++ rest)) with (Sample.pad w n).
  - replace (skipn w (Sample.pad w n ++ rest)) with rest.
    + rewrite L, Nat.eqb_refl, pad_digits, number_pad by exact H.
      reflexivity.
    + rewrite skipn_app, L, Nat.sub_diag. simpl.
      rewrite <- L at 1. now rewrite skipn_all.
  - rewrite firstn_app, L, Nat.sub_diag. simpl.
    rewrite <- L at 2. now rewrite firstn_all, app_nil_r.
Qed.

Lemma expect_head (a : ascii) (rest : str) :
  Sample.expect a (N_of_ascii a :: rest) = Some rest.
Proof. simpl. now rewrite N.eqb_refl. Qed.

Lemma days_in_month_bound (y m : Z) : (28 <= days_in_month y m <= 31)%Z.
Proof.
  unfold days_in_month.
  destruct (m =? 2)%Z; [destruct (is_leap y); lia|].
  destruct ((m =? 4) || (m =? 6) || (m =? 9) || (m =? 11))%Z; lia.
Qed.

Lemma valid_datetimeb_true (d : datetime) :
  valid_datetime d -> Sample.valid_datetimeb d = true.
Proof.
  unfold valid_datetime, Sample.valid_datetimeb, Sample.in_bounds.
  intros H. repeat (apply andb_true_intro; split); apply Z.leb_le; lia.
Qed.

Lemma sample_iso_round_trip (d : datetime) :
  valid_datetime d -> Sample.fromisoformat (Sample.isoformat d) = Some d.
Proof.
  intros V. pose proof (valid_datetimeb_true V) as B.
  destruct d as [y mo da h mi se us].
  pose proof (days_in_month_bound y mo) as M.
  unfold valid_datetime in V. cbn [year month day hour minute second
                                   microsecond] in V.
  unfold Sample.fromisoformat, Sample.isoformat.
  cbn [year month day hour minute second microsecond Str.lit app].
  repeat (first [ rewrite take_number_pad by (cbn [Sample.limit]; lia)
                | rewrite expect_head ];
          cbn [Sample.obind fst snd]).
  destruct (Z.eqb_spec us 0) as [-> | NZ].
  - cbn [Sample.obind fst snd Sample.fraction]. now rewrite B.
  - unfold Sample.fraction.
    rewrite expect_head. cbn [Sample.obind].
    rewrite <- (app_nil_r (Sample.pad 6 us)).
    rewrite take_number_pad by (cbn [Sample.limit]; lia).
    cbn [Sample.obind fst snd]. now rewrite B.
Qed.

Lemma sample_lawful : Spec.lawful Sample.runtime.
Proof.
  split; [|split].
  - intros s. rewrite !sample_lower, map_map.
    apply map_ext. apply ascii_lower_char_idempotent.
  - intros s. rewrite !sample_lower.
    apply strip_map. apply ascii_lower_char_space.
  - intros d V. now apply sample_iso_round_trip.
Qed.

(** *** The theorems at the entities of the examples *)

(** C9 at a stored order that names a product missing from the catalog and
    weighs out a unit product: the record loads, and only the laptop and
    the sugar remain. *)
Lemma from_dict_drops_unresolved_witness :
  Dict.get Z.eqb 1%Z [(1%Z, Eg.ivanov)] = Some Eg.ivanov
  /\ @fromisoformat Sample.runtime (Str.lit "2024-05-01T00:00:00")
     = Some Eg.may_day
  /\ NoDup (map fst Eg.stale_entries)
  /\ Order.from_dict (rt := Sample.runtime)
       (Spec.order_document 101 1 Eg.stale_names Eg.stale_entries
          (Str.lit "2024-05-01T00:00:00"))
       [(1%Z, Eg.ivanov)] [Eg.laptop; Eg.sugar]
     = Ok Eg.mixed_order
  /\ Forall (fun it => Product.is_per_kg (fst it) = true)
            (Order.products_kg Eg.mixed_order).
Proof.
  assert (H1 : Dict.get Z.eqb 1%Z [(1%Z, Eg.ivanov)] = Some Eg.ivanov)
    by reflexivity.
  assert (H2 : @fromisoformat Sample.runtime
                 (Str.lit "2024-05-01T00:00:00") = Some Eg.may_day)
    by reflexivity.
  assert (H3 : NoDup (map fst Eg.stale_entries)).
  { repeat constructor; simpl; intuition discriminate. }
  destruct (from_dict_drops_unresolved (rt := Sample.runtime)
              [(1%Z, Eg.ivanov)] [Eg.laptop; Eg.sugar]) as [A B].
  destruct (B 101%Z 1%Z Eg.stale_names Eg.stale_entries
              (Str.lit "2024-05-01T00:00:00") Eg.ivanov Eg.may_day
              H1 H2 H3) as [R _].
  split; [exact H1|].
  split; [exact H2|].
  split; [exact H3|].
  split; [exact R|].
  exact (A _ _ R).
Defined.

(** C2 at the sample runtime, the client "Иванов", the product "Сахар" and
    the mixed order of the specification's example. *)
Lemma from_dict_inverts_to_dict_witness :
  Spec.lawful Sample.runtime
  /\ Client.init (rt := Sample.runtime) (VInt 1) (VStr Eg.ivanov_fio)
       (VStr (Str.lit " +79991234567")) (VStr (Str.lit "I@Mail.RU "))
     = Ok Eg.ivanov
  /\ Client.from_dict (rt := Sample.runtime) (Client.to_dict Eg.ivanov)
     = Ok Eg.ivanov
  /\ Product.init (rt := Sample.runtime) (VStr (Product.name Eg.sugar))
       (VInt 50) (VBool true)
     = Ok Eg.sugar
  /\ Product.from_dict (rt := Sample.runtime) (Product.to_dict Eg.sugar)
     = Ok Eg.sugar
  /\ NoDup (map Product.name [Eg.laptop; Eg.sugar])
  /\ Spec.restorable [(1%Z, Eg.ivanov)] [Eg.laptop; Eg.sugar] Eg.mixed_order
  /\ exists o',
       Order.from_dict (rt := Sample.runtime)
         (Order.to_dict (rt := Sample.runtime) Eg.mixed_order)
         [(1%Z, Eg.ivanov)] [Eg.laptop; Eg.sugar] = Ok o'
       /\ Order.number o' = Order.number Eg.mixed_order
       /\ Order.client o' = Order.client Eg.mixed_order
       /\ Order.products_list o' = Order.products_list Eg.mixed_order
       /\ Order.products_kg o' = Order.products_kg Eg.mixed_order
       /\ Order.date o' = Order.date Eg.mixed_order
       /\ Order.total_cost o' = Order.total_cost Eg.mixed_order.
Proof.
  destruct (from_dict_inverts_to_dict sample_lawful) as (A & B & C).
  assert (H1 : Client.init (rt := Sample.runtime) (VInt 1)
                 (VStr Eg.ivanov_fio) (VStr (Str.lit " +79991234567"))
                 (VStr (Str.lit "I@Mail.RU ")) = Ok Eg.ivanov)
    by reflexivity.
  assert (H2 : Product.init (rt := Sample.runtime)
                 (VStr (Product.name Eg.sugar)) (VInt 50) (VBool true)
               = Ok Eg.sugar)
    by reflexivity.
  assert (H3 : NoDup (map Product.name [Eg.laptop; Eg.sugar])).
  { repeat constructor; simpl; intuition discriminate. }
  assert (H4 : Spec.restorable [(1%Z, Eg.ivanov)] [Eg.laptop; Eg.sugar]
                 Eg.mixed_order).
  { unfold Spec.restorable. split; [reflexivity|].
    split; [apply Forall_cons; [simpl; auto | apply Forall_nil]|].
    split; [apply Forall_cons;
              [split; [simpl; auto | reflexivity] | apply Forall_nil]|].
    split; [apply NoDup_cons; [simpl; tauto | apply NoDup_nil]|].
    unfold valid_datetime.
    change (days_in_month (year (Order.date Eg.mixed_order))
              (month (Order.date Eg.mixed_order))) with 31%Z.
    simpl. lia. }
  split; [exact sample_lawful|].
  split; [exact H1|].
  split; [exact (A _ _ _ _ _ H1)|].
  split; [exact H2|].
  split; [exact (B _ _ _ _ H2)|].
  split; [exact H3|].
  split; [exact H4|].
  exact (C _ _ _ H3 H4).
Defined.

(** *** C6: the ranking of clients by number of orders *)

Section Sorting.
Variable A : Type.
Variable before : A -> A -> bool.

Lemma insert_permutation (x : A) (l : list A) :
  Permutation (Analysis.insert before x l) (x :: l).
Proof.
  induction l as [|y t IH]; simpl.
  - apply Permutation_refl.
  - destruct (before x y).
    + apply Permutation_refl.
    + apply Permutation_trans with (y :: x :: t).
      * now apply perm_skip.
      * apply perm_swap.
Qed.

Lemma sort_permutation (l : list A) : Permutation (Analysis.sort before l) l.
Proof.
  induction l as [|x t IH]; simpl.
  - apply perm_nil.
  - apply Permutation_trans with (x :: Analysis.sort before t).
    + apply insert_permutation.
    + now apply perm_skip.
Qed.

Hypothesis before_total : forall a b, before a b = false -> before b a = true.
Hypothesis before_trans :
  forall a b c, before a b = true -> before b c = true -> before a c = true.

Lemma insert_sorted (x : A) (l : list A) :
  StronglySorted (fun a b => before a b = true) l ->
  StronglySorted (fun a b => before a b = true) (Analysis.insert before x l).
Proof.
  induction l as [|y t IH]; simpl; intros S.
  - constructor; constructor.
  - inversion S as [|? ? St Ft]; subst.
    destruct (before x y) eqn:E.
    + constructor; [exact S|].
      constructor; [exact E|].
      eapply Forall_impl; [|exact Ft].
      intros z Hz. now apply before_trans with y.
    + constructor; [now apply IH|].
      apply (Permutation_Forall
               (Permutation_sym (insert_permutation x t))).
      constructor; [now apply before_total | exact Ft].
Qed.

Lemma sort_sorted (l : list A) :
  StronglySorted (fun a b => before a b = true) (Analysis.sort before l).
Proof.
  induction l as [|x t IH]; simpl.
  - constructor.
  - now apply insert_sorted.
Qed.

End Sorting.

Lemma strongly_sorted_weaken (A : Type) (R R' : A -> A -> Prop)
  (l : list A) :
  (forall a b, R a b -> R' a b) ->
  StronglySorted R l -> StronglySorted R' l.
Proof.
  intros W S. induction S as [|x t St IH Ft]; constructor.
  - exact IH.
  - eapply Forall_impl; [|exact Ft]. intros b. apply W.
Qed.

Lemma head_nat (A : Type) (m : nat) (l : list A) :
  Analysis.head (Z.of_nat m) l = firstn m l.
Proof.
  unfold Analysis.head.
  assert (E : (0 <=? Z.of_nat m)%Z = true) by (apply Z.leb_le; lia).
  now rewrite E, Nat2Z.id.
Qed.

Lemma head_nil (A : Type) (n : Z) : Analysis.head n (@nil A) = [].
Proof.
  unfold Analysis.head. destruct (0 <=? n)%Z; apply firstn_nil.
Qed.

(** The rows of the frame, read off the orders. *)
Lemma in_orders_to_df (orders : list Analysis.Order) (r : Analysis.row) :
  In r (Analysis.orders_to_df orders) <->
  exists o p, In o orders /\ In p (Analysis.products o)
              /\ r = Analysis.mk_row (Analysis.order_number o)
                       (Analysis.number (Analysis.client o))
                       (Analysis.fio (Analysis.client o))
                       (Analysis.name p) (Analysis.price p)
                       (date_of (Analysis.date o)).
Proof.
  unfold Analysis.orders_to_df. rewrite in_flat_map. split.
  - intros (o & Ho & Hr). apply in_map_iff in Hr.
    destruct Hr as (p & <- & Hp). now exists o, p.
  - intros (o & p & Ho & Hp & ->). exists o. split; [exact Ho|].
    apply in_map_iff. now exists p.
Qed.

Lemma has_items_in (o : Analysis.Order) :
  Spec.has_items o = true <-> exists p, In p (Analysis.products o).
Proof.
  unfold Spec.has_items. destruct (Analysis.products o) as [|p t]; split.
  - discriminate.
  - intros [p []].
  - intros _. exists p. now left.
  - reflexivity.
Qed.

(** The keys of the rows are the clients of the orders with line items. *)
Lemma row_keys_active (orders : list Analysis.Order) (k : Z * str) :
  In k (map Analysis.client_key (Analysis.orders_to_df orders))
  <-> In k (Spec.active_clients orders).
Proof.
  unfold Spec.active_clients. rewrite !in_map_iff. split.
  - intros (r & <- & Hr). apply in_orders_to_df in Hr.
    destruct Hr as (o & p & Ho & Hp & ->).
    exists o. split; [reflexivity|].
    apply filter_In. split; [exact Ho|].
    apply has_items_in. now exists p.
  - intros (o & <- & Ho). apply filter_In in Ho. destruct Ho as [Ho Hi].
    apply has_items_in in Hi. destruct Hi as [p Hp].
    eexists. split; [|apply in_orders_to_df; exists o, p; eauto].
    reflexivity.
Qed.

(** The order numbers on the rows of a group are those of the client's
    orders with line items. *)
Lemma group_order_numbers (orders : list Analysis.Order) (k : Z * str)
  (x : Z) :
  In x (map Analysis.OrderNumber
          (filter (fun r => if Analysis.client_key_eq_dec
                                 (Analysis.client_key r) k
                            then true else false)
                  (Analysis.orders_to_df orders)))
  <-> In x (map Analysis.order_number
              (filter (fun o =>
                         Spec.has_items o
                         && if Analysis.client_key_eq_dec
                                 (Spec.client_of o) k
                            then true else false)
                      orders)).
Proof.
  rewrite !in_map_iff. split.
  - intros (r & <- & Hr). apply filter_In in Hr. destruct Hr as [Hr Hk].
    apply in_orders_to_df in Hr. destruct Hr as (o & p & Ho & Hp & ->).
    exists o. split; [reflexivity|].
    apply filter_In. split; [exact Ho|].
    apply andb_true_iff. split.
    + apply has_items_in. now exists p.
    + exact Hk.
  - intros (o & <- & Ho). apply filter_In in Ho. destruct Ho as [Ho Hc].
    apply andb_true_iff in Hc. destruct Hc as [Hi Hk].
    apply has_items_in in Hi. destruct Hi as [p Hp].
    eexists. split; [|apply filter_In; split;
                       [apply in_orders_to_df; exists o, p; eauto|]].
    + reflexivity.
    + exact Hk.
Qed.

Lemma nodup_length_same_elements (l1 l2 : list Z) :
  (forall x, In x l1 <-> In x l2) ->
  List.length (nodup Z.eq_dec l1) = List.length (nodup Z.eq_dec l2).
Proof.
  intros H. apply Permutation_length.
  apply NoDup_Permutation; try apply NoDup_nodup.
  intros x. rewrite !nodup_In. apply H.
Qed.

Lemma group_count (orders : list Analysis.Order) (k : Z * str) :
  Analysis.nunique
    (filter (fun r => if Analysis.client_key_eq_dec
                           (Analysis.client_key r) k
                      then true else false)
            (Analysis.orders_to_df orders))
  = Spec.distinct_orders k orders.
Proof.
  unfold Analysis.nunique, Spec.distinct_orders.
  apply nodup_length_same_elements. apply group_order_numbers.
Qed.

Lemma top_clients_by_orders_formula (orders : list Analysis.Order)
  (top : option Z) :
  Analysis.top_clients_by_orders orders top
  = Ok (Analysis.head (Analysis.default_top top)
          (Analysis.sort_values_desc (fun a b => Nat.leb b a)
             (map (fun g => (fst g, Analysis.nunique (snd g)))
                  (Analysis.groupby Analysis.client_key_eq_dec
                     Analysis.client_key_leb Analysis.client_key
                     (Analysis.orders_to_df orders))))).
Proof.
  unfold Analysis.top_clients_by_orders.
  destruct (Analysis.orders_to_df orders) as [|r df]; [|reflexivity].
  simpl. now rewrite head_nil.
Qed.

(** C6: the ranking underlying [top_clients_by_orders] has exactly one
    entry per (client number, client name) that has an order with line
    items; the value of an entry is the number of distinct order numbers
    among that client's orders with line items, however many line items
    each has; the entries are in descending order of that number; the
    function returns the first [top] entries of the ranking, five when
    [top] is not given; and one order of five line items gives its client
    the count 1. *)
Theorem top_clients_count_distinct_orders (orders : list Analysis.Order) :
  exists ranking : Analysis.Series (Z * str) nat,
    Permutation (map fst ranking)
      (nodup Analysis.client_key_eq_dec (Spec.active_clients orders))
    /\ (forall k n, In (k, n) ranking -> n = Spec.distinct_orders k orders)
    /\ StronglySorted (fun a b => (snd b <= snd a)%nat) ranking
    /\ (forall m : nat,
          Analysis.top_clients_by_orders orders (Some (Z.of_nat m))
          = Ok (firstn m ranking))
    /\ Analysis.top_clients_by_orders orders None = Ok (firstn 5 ranking)
    /\ Analysis.top_clients_by_orders [Eg.five_lines] None
       = Ok [((1%Z, Eg.ivanov_fio), 1%nat)].
Proof.
  set (df := Analysis.orders_to_df orders).
  set (counts := map (fun g => (fst g, Analysis.nunique (snd g)))
                     (Analysis.groupby Analysis.client_key_eq_dec
                        Analysis.client_key_leb Analysis.client_key df)).
  exists (Analysis.sort_values_desc (fun a b => Nat.leb b a) counts).
  assert (P : Permutation
                (Analysis.sort_values_desc (fun a b => Nat.leb b a) counts)
                counts) by apply sort_permutation.
  assert (K : map fst counts
              = Analysis.sort Analysis.client_key_leb
                  (nodup Analysis.client_key_eq_dec
                     (map Analysis.client_key df))).
  { unfold counts, Analysis.groupby. rewrite !map_map. simpl.
    apply map_id. }
  split; [|split; [|split; [|split; [|split]]]].
  - apply Permutation_trans with (map fst counts);
      [now apply Permutation_map|].
    rewrite K.
    apply Permutation_trans
      with (nodup Analysis.client_key_eq_dec (map Analysis.client_key df));
      [apply sort_permutation|].
    apply NoDup_Permutation; try apply NoDup_nodup.
    intros k. rewrite !nodup_In. apply row_keys_active.
  - intros k n H.
    apply (Permutation_in _ P) in H.
    unfold counts, Analysis.groupby in H. rewrite map_map in H.
    apply in_map_iff in H. destruct H as (k' & E & _).
    simpl in E. injection E as -> <-. apply group_count.
  - apply strongly_sorted_weaken
      with (R := fun a b : (Z * str) * nat =>
                   Nat.leb (snd b) (snd a) = true).
    + intros a b H. now apply Nat.leb_le.
    + apply sort_sorted.
      * intros a b H. apply Nat.leb_gt in H. apply Nat.leb_le. lia.
      * intros a b c H1 H2. apply Nat.leb_le in H1, H2.
        apply Nat.leb_le. lia.
  - intros m. rewrite top_clients_by_orders_formula. simpl.
    now rewrite head_nat.
  - rewrite top_clients_by_orders_formula. reflexivity.
  - reflexivity.
Qed.

(** ** Part III: further properties of the repository *)

Section RepositoryMore.
Context {rt : Runtime}.

Lemma step_only_appends (st : FileDatabase.t * FileDatabase.disk)
  (c : FileDatabase.call) :
  FileDatabase.clients (fst (FileDatabase.step st c))
  = FileDatabase.clients (fst st) ++ Spec.clients_added [c]
  /\ FileDatabase.orders (fst (FileDatabase.step st c))
     = FileDatabase.orders (fst st) ++ Spec.orders_added [c]
  /\ (FileDatabase.next_client_id (fst st)
      <= FileDatabase.next_client_id (fst (FileDatabase.step st c)))%Z
  /\ (FileDatabase.next_order_id (fst st)
      <= FileDatabase.next_order_id (fst (FileDatabase.step st c)))%Z.
Proof.
  destruct st as [db d]. destruct c as [w client | w order]; simpl.
  - unfold FileDatabase.add_client, FileDatabase._save_clients.
    destruct (FileDatabase.write w _) as [f r]. simpl.
    rewrite app_nil_r. repeat split; lia.
  - unfold FileDatabase.add_order, FileDatabase._save_orders.
    destruct (FileDatabase.write w _) as [f r]. simpl.
    rewrite app_nil_r. repeat split; lia.
Qed.

(** X1: the mutators only append.  After any sequence of [add_client] and
    [add_order] calls the client collection is the old one followed by the
    clients passed to [add_client], in call order, and the order collection
    the old one followed by the orders passed to [add_order], in call order:
    nothing is removed, replaced or reordered, and no entity is refused,
    whatever its identifier; neither counter has decreased.  This holds
    whether or not the writes succeed. *)
Theorem run_only_appends (calls : list FileDatabase.call)
  (st : FileDatabase.t * FileDatabase.disk) :
  FileDatabase.clients (fst (FileDatabase.run st calls))
  = FileDatabase.clients (fst st) ++ Spec.clients_added calls
  /\ FileDatabase.orders (fst (FileDatabase.run st calls))
     = FileDatabase.orders (fst st) ++ Spec.orders_added calls
  /\ (FileDatabase.next_client_id (fst st)
      <= FileDatabase.next_client_id (fst (FileDatabase.run st calls)))%Z
  /\ (FileDatabase.next_order_id (fst st)
      <= FileDatabase.next_order_id (fst (FileDatabase.run st calls)))%Z.
Proof.
  revert st; induction calls as [|c calls IH]; intros st.
  - simpl. rewrite !app_nil_r. repeat split; lia.
  - destruct (step_only_appends st c) as (C1 & O1 & N1 & M1).
    destruct (IH (FileDatabase.step st c)) as (C2 & O2 & N2 & M2).
    unfold FileDatabase.run in *. cbn [fold_left].
    rewrite C2, O2, C1, O1, <- !app_assoc.
    repeat split; try lia; f_equal; destruct c; reflexivity.
Qed.

Lemma find_snoc (A : Type) (f : A -> bool) (l : list A) (x : A) :
  find f (l ++ [x])
  = match find f l with
    | Some y => Some y
    | None => if f x then Some x else None
    end.
Proof.
  induction l as [|y l IH]; simpl; [reflexivity|].
  destruct (f y); [reflexivity | exact IH].
Qed.

(** X2: lookup by identifier.  [find_client_by_id] returns a stored client
    with the requested number, and [None] exactly when no stored client has
    it; [add_client] leaves every lookup that succeeded unchanged, also for
    the number of the client added (the repository accepts a second client
    with a number already present, and the earlier one keeps answering), and
    makes the new client the answer for its number when that number was
    free. *)
Theorem find_client_by_id_after_add (w : FileDatabase.io)
  (client : Client.t) (db : FileDatabase.t) (d : FileDatabase.disk)
  (client_id : Z) :
  (forall c, FileDatabase.find_client_by_id db client_id = Some c ->
             In c (FileDatabase.clients db) /\ Client.number c = client_id)
  /\ (FileDatabase.find_client_by_id db client_id = None <->
      forall c, In c (FileDatabase.clients db) ->
                Client.number c <> client_id)
  /\ FileDatabase.find_client_by_id
       (fst (fst (FileDatabase.add_client w client db d))) client_id
     = match FileDatabase.find_client_by_id db client_id with
       | Some c => Some c
       | None => if Z.eqb (Client.number client) client_id
                 then Some client else None
       end.
Proof.
  unfold FileDatabase.find_client_by_id. split; [|split].
  - intros c H. apply find_some in H. destruct H as [I E].
    apply Z.eqb_eq in E. now split.
  - split.
    + intros H c I E. apply (find_none _ _ H) in I.
      apply Z.eqb_neq in I. contradiction.
    + intros H.
      destruct (find _ (FileDatabase.clients db)) as [c|] eqn:F;
        [|reflexivity].
      apply find_some in F. destruct F as [I E]. apply Z.eqb_eq in E.
      exfalso. now apply (H c I).
  - unfold FileDatabase.add_client, FileDatabase._save_clients.
    destruct (FileDatabase.write w _) as [f r]. simpl.
    apply find_snoc.
Qed.

(** X3: what reopening costs.  Whatever the orders document held, a
    repository opened over the directory starts with no orders, so the
    first [add_order] whose write succeeds replaces the document by one
    that holds the new order alone: the orders persisted before are gone
    from the disk as well. *)
Theorem add_order_after_reopening_overwrites (order : Order.t)
  (d : FileDatabase.disk) :
  let db := FileDatabase.init d in
  let after := fst (FileDatabase.add_order FileDatabase.Written order db d) in
  FileDatabase.orders (fst after) = [order]
  /\ FileDatabase.orders_file (snd after)
     = FileDatabase.Json (VList [Order.to_dict order])
  /\ FileDatabase.clients_file (snd after) = FileDatabase.clients_file d.
Proof.
  simpl. unfold FileDatabase.init. simpl.
  rewrite load_orders_empty. repeat split.
Qed.

Lemma orders_to_df_loop_raises (orders : list Order.t)
  (data : list FileDatabase.export_row) :
  FileDatabase.orders_to_df_loop orders data
  = match orders with
    | [] => Ok data
    | _ :: _ => Raise AttributeError
    end.
Proof. destruct orders; reflexivity. Qed.

(** X4: the CSV export works on a repository without orders only.  The
    frame is built from [order.products], an attribute the orders of
    [models.py] do not have: with no orders the export writes an empty
    frame, with at least one order it raises [AttributeError], whatever the
    orders are. *)
Theorem export_to_csv_needs_no_orders (self : FileDatabase.t) :
  FileDatabase.export_to_csv self
  = match FileDatabase.orders self with
    | [] => Ok []
    | _ :: _ => Raise AttributeError
    end.
Proof.
  unfold FileDatabase.export_to_csv, FileDatabase.orders_to_df.
  rewrite orders_to_df_loop_raises.
  now destruct (FileDatabase.orders self).
Qed.

Lemma mapM_inverse (A B : Type) (f : A -> result B) (g : B -> A)
  (l : list B) :
  Forall (fun b => f (g b) = Ok b) l -> mapM f (map g l) = Ok l.
Proof.
  induction 1 as [|b l Hb F IH]; simpl; [reflexivity|].
  now rewrite Hb, IH.
Qed.

Lemma mapM_raises (A B : Type) (f : A -> result B) (l : list A) :
  Exists (fun a => exists e, f a = Raise e) l ->
  exists e, mapM f l = Raise e.
Proof.
  induction 1 as [a l [e He] | a l E [e IH]]; simpl.
  - rewrite He. now exists e.
  - destruct (f a) as [b|e']; simpl; [|now exists e'].
    rewrite IH. now exists e.
Qed.

Lemma load_saved_clients (clients : list Client.t)
  (f : FileDatabase.file) :
  Spec.lawful rt ->
  Forall Spec.constructed clients ->
  FileDatabase._load_clients
    (FileDatabase.mk_disk
       (FileDatabase.Json (VList (map Client.to_dict clients))) f)
  = clients.
Proof.
  intros laws F. unfold FileDatabase._load_clients. simpl.
  rewrite mapM_inverse; [reflexivity|].
  eapply Forall_impl; [|exact F].
  intros c (n & fi & ph & em & H). eapply client_round_trip; eauto.
Qed.

(** X5: clients survive reopening.  When every stored client and the client
    added are clients that construction returned, then after an
    [add_client] whose write succeeds a repository opened over the
    directory holds exactly the same clients in the same order, and its
    client counter is above all of them. *)
Theorem clients_survive_reopening (client : Client.t) (db : FileDatabase.t)
  (d : FileDatabase.disk) :
  Spec.lawful rt ->
  Forall Spec.constructed (FileDatabase.clients db) ->
  Spec.constructed client ->
  let after :=
    fst (FileDatabase.add_client FileDatabase.Written client db d) in
  let reopened := FileDatabase.init (snd after) in
  FileDatabase.clients (fst after) = FileDatabase.clients db ++ [client]
  /\ FileDatabase.clients reopened = FileDatabase.clients db ++ [client]
  /\ Forall (fun c => (Client.number c
                       < FileDatabase.next_client_id reopened)%Z)
            (FileDatabase.clients db ++ [client]).
Proof.
  intros laws F Fc after reopened.
  assert (L : FileDatabase.clients reopened
              = FileDatabase.clients db ++ [client]).
  { subst reopened after. unfold FileDatabase.init. simpl.
    apply load_saved_clients; [exact laws|].
    apply Forall_app. split; [exact F | now constructor]. }
  split; [reflexivity|]. split; [exact L|].
  rewrite <- L. apply (init_ids_below (snd after)).
Qed.

(** X6: loading clients is all or nothing.  If a single record of the
    clients document fails to deserialise (a tampered phone, a missing
    key), the repository starts with no clients at all, not with the
    records that were sound. *)
Theorem one_bad_client_record_empties_the_load (d : FileDatabase.disk)
  (records : list value) :
  FileDatabase.clients_file d = FileDatabase.Json (VList records) ->
  Exists (fun r => exists e, Client.from_dict r = Raise e) records ->
  FileDatabase._load_clients d = []
  /\ FileDatabase.clients (FileDatabase.init d) = []
  /\ FileDatabase.next_client_id (FileDatabase.init d) = 1%Z.
Proof.
  intros Hf E.
  assert (L : FileDatabase._load_clients d = []).
  { unfold FileDatabase._load_clients. rewrite Hf. simpl.
    destruct (mapM_raises Client.from_dict E) as [e He].
    now rewrite He. }
  split; [exact L|].
  unfold FileDatabase.init. simpl. rewrite L. split; reflexivity.
Qed.

End RepositoryMore.

Lemma ivanov_constructed : Spec.constructed (rt := Sample.runtime) Eg.ivanov.
Proof.
  exists (VInt 1), (VStr Eg.ivanov_fio), (VStr (Str.lit "+79991234567")),
    (VStr (Str.lit "i@mail.ru")).
  reflexivity.
Qed.

Lemma petrov_constructed : Spec.constructed (rt := Sample.runtime) Eg.petrov.
Proof.
  exists (VInt 2), (VStr (Str.lit " Petrov")),
    (VStr (Str.lit "+79997654321 ")), (VStr (Str.lit "P@Yandex.ru")).
  reflexivity.
Qed.

(** X5 at a repository that holds "Иванов" and receives "Petrov". *)
Lemma clients_survive_reopening_witness :
  Spec.lawful Sample.runtime
  /\ Forall (Spec.constructed (rt := Sample.runtime))
            (FileDatabase.clients Eg.one_client_db)
  /\ Spec.constructed (rt := Sample.runtime) Eg.petrov
  /\ FileDatabase.clients
       (FileDatabase.init (rt := Sample.runtime)
          (snd (fst (FileDatabase.add_client FileDatabase.Written Eg.petrov
                       Eg.one_client_db Eg.empty_dir))))
     = [Eg.ivanov; Eg.petrov].
Proof.
  assert (H2 : Forall (Spec.constructed (rt := Sample.runtime))
                 (FileDatabase.clients Eg.one_client_db)).
  { apply Forall_cons; [exact ivanov_constructed | apply Forall_nil]. }
  split; [exact sample_lawful|].
  split; [exact H2|].
  split; [exact petrov_constructed|].
  exact (proj1 (proj2 (@clients_survive_reopening Sample.runtime Eg.petrov
                         Eg.one_client_db Eg.empty_dir sample_lawful H2
                         petrov_constructed))).
Defined.

(** X6 at a clients document whose second record has a phone without the
    [+7] prefix. *)
Lemma one_bad_client_record_empties_the_load_witness :
  FileDatabase.clients_file
    (FileDatabase.mk_disk (FileDatabase.Json (VList Spec.tampered_clients))
       FileDatabase.Absent)
  = FileDatabase.Json (VList Spec.tampered_clients)
  /\ Exists (fun r => exists e,
               Client.from_dict (rt := Sample.runtime) r = Raise e)
            Spec.tampered_clients
  /\ FileDatabase.clients
       (FileDatabase.init (rt := Sample.runtime)
          (FileDatabase.mk_disk
             (FileDatabase.Json (VList Spec.tampered_clients))
             FileDatabase.Absent))
     = [].
Proof.
  assert (H2 : Exists (fun r => exists e,
                         Client.from_dict (rt := Sample.runtime) r = Raise e)
                 Spec.tampered_clients).
  { apply Exists_cons_tl, Exists_cons_hd.
    exists (ValueError (BadPhone (Str.lit "89991234567"))). reflexivity. }
  split; [reflexivity|].
  split; [exact H2|].
  exact (proj1 (proj2 (@one_bad_client_record_empties_the_load
                         Sample.runtime
                         (FileDatabase.mk_disk
                            (FileDatabase.Json (VList Spec.tampered_clients))
                            FileDatabase.Absent)
                         Spec.tampered_clients eq_refl H2))).
Defined.

(** ** Part IV: further properties of the entity model *)


Lemma in_models_frame (orders : list Order.t) (r : Models.row) :
  In r (Models.orders_to_df orders) <->
  exists o, In o orders
            /\ ((exists p, In p (Order.products_list o)
                           /\ r = Models.unit_row o p)
                \/ (exists it, In it (Order.products_kg o)
                               /\ r = Models.weight_row o it)).
Proof.
  unfold Models.orders_to_df. rewrite in_flat_map. split.
  - intros (o & Ho & Hr). exists o. split; [exact Ho|].
    apply in_app_or in Hr. destruct Hr as [Hr | Hr];
      apply in_map_iff in Hr; destruct Hr as (x & <- & Hx); eauto.
  - intros (o & Ho & [(p & Hp & ->) | (it & Hi & ->)]);
      exists o; (split; [exact Ho|]); apply in_or_app.
    + left. now apply in_map.
    + right. now apply in_map.
Qed.

(** X8: the rows of [models.orders_to_df].  There is one row per unit item
    and one per weight item; on every row [Revenue] is [Price] times
    [Quantity]; the [IsPerKg] mark says which collection the item came from,
    whatever the product's own flag: unmarked rows have quantity [1] and
    the price as revenue; and every row carries the number, client and
    date-only day of an order of the collection. *)
Theorem models_frame_rows (orders : list Order.t) :
  List.length (Models.orders_to_df orders)
  = list_sum (map (fun o => (List.length (Order.products_list o)
                             + List.length (Order.products_kg o))%nat)
                  orders)
  /\ List.length (filter Models.IsPerKg (Models.orders_to_df orders))
     = list_sum (map (fun o => List.length (Order.products_kg o)) orders)
  /\ (forall r, In r (Models.orders_to_df orders) ->
        (Models.Revenue r == Models.Price r * Models.Quantity r)%Q
        /\ (Models.IsPerKg r = false ->
            Models.Quantity r = 1%Q /\ Models.Revenue r = Models.Price r)
        /\ exists o, In o orders
             /\ Models.OrderNumber r = Order.number o
             /\ Models.ClientNumber r = Client.number (Order.client o)
             /\ Models.ClientFIO r = Client.fio (Order.client o)
             /\ Models.OrderDate r = date_of (Order.date o)).
Proof.
  split; [|split].
  - induction orders as [|o t IH]; simpl; [reflexivity|].
    rewrite !length_app, !length_map, IH. reflexivity.
  - induction orders as [|o t IH]; simpl; [reflexivity|].
    rewrite !filter_app, !length_app, IH. f_equal.
    assert (U : filter Models.IsPerKg
                  (map (Models.unit_row o) (Order.products_list o)) = []).
    { induction (Order.products_list o); simpl; auto. }
    assert (W : filter Models.IsPerKg
                  (map (Models.weight_row o) (Order.products_kg o))
                = map (Models.weight_row o) (Order.products_kg o)).
    { induction (Order.products_kg o); simpl; congruence. }
    rewrite U, W, length_map. reflexivity.
  - intros r H. apply in_models_frame in H.
    destruct H as (o & Ho & [(p & Hp & ->) | (it & Hi & ->)]); simpl.
    + split; [ring|]. split; [intros _; split; reflexivity|].
      exists o. repeat split. exact Ho.
    + split; [reflexivity|]. split; [discriminate|].
      exists o. repeat split. exact Ho.
Qed.

Section ModelMore.
Context {rt : Runtime}.

(** X9: what construction guarantees.  Under the laws of the interpreter's
    library, every client that [Client] construction returns has a name
    without surrounding white space, a phone that is empty or [+7] and ten
    decimal digits, and an e-mail that is empty or of the shape
    [local@domain.tld] and already in lower case. *)
Theorem constructed_client_is_normalised
  (number fio phone email : value) (c : Client.t) :
  Spec.lawful rt ->
  Client.init number fio phone email = Ok c ->
  Str.strip (Client.fio c) = Client.fio c
  /\ Spec.phone_form (Client.phone c)
  /\ (Client.email c = [] \/ Spec.email_form (Client.email c))
  /\ lower (Client.email c) = Client.email c.
Proof.
  intros (L1 & L2 & _) H. unfold Client.init in H. bind_inv H.
  injection H as <-.
  destruct fio as [| | | |sf| |]; try discriminate.
  destruct phone as [| | | |sp| |]; try discriminate.
  destruct email as [| | | |se| |]; try discriminate.
  simpl in *.
  match goal with E : Ok _ = Ok a0 |- _ => injection E as <- end.
  match goal with E : Ok _ = Ok a1 |- _ => injection E as <- end.
  match goal with E : Ok _ = Ok a2 |- _ => injection E as <- end.
  match goal with E : Client.validate _ = Ok _ |- _ => rename E into V end.
  unfold Client.validate in V. simpl in V.
  destruct (Client.nonempty (Str.strip sp)
            && negb (Re.match_anchored Client.phone_pattern (Str.strip sp)))
    eqn:P; [discriminate V|].
  destruct (Client.nonempty (lower (Str.strip se))
            && negb (Re.match_anchored Client.email_pattern
                       (lower (Str.strip se))))
    eqn:M; [discriminate V|].
  assert (S : Str.strip (lower (Str.strip se)) = lower (Str.strip se))
    by now rewrite L2, strip_idempotent.
  split; [apply strip_idempotent|].
  split; [apply phone_test_stripped; [apply rstrip_strip | exact P]|].
  split; [|apply L1].
  apply email_test_stripped; [|exact M].
  rewrite <- S. apply rstrip_strip.
Qed.

(** X10: an order of an unknown client does not load.  When the stored
    client number is not a key of [clients_map], [Order.from_dict] raises
    [KeyError], before it looks at the products, the date or the number of
    the record. *)
Theorem from_dict_unknown_client (data : value)
  (clients_map : list (Z * Client.t)) (catalog : list Product.t)
  (key : Z) :
  item data "client_number" = Ok (VInt key) ->
  Dict.get Z.eqb key clients_map = None ->
  Order.from_dict data clients_map catalog = Raise KeyError.
Proof.
  intros Hk Hc. unfold Order.from_dict. rewrite Hk. cbn [bind].
  unfold Order.lookup_client. cbn [int_key bind]. now rewrite Hc.
Qed.

(** X11: an order with a malformed date does not load.  On a record of the
    orders document whose client resolves, a date that [fromisoformat]
    rejects makes [Order.from_dict] raise [ValueError] with that text,
    whatever names the record lists. *)
Theorem from_dict_malformed_date (clients_map : list (Z * Client.t))
  (catalog : list Product.t) (n key : Z) (names : list str)
  (entries : list (str * Q)) (ds : str) (c : Client.t) :
  Dict.get Z.eqb key clients_map = Some c ->
  fromisoformat ds = None ->
  NoDup (map fst entries) ->
  Order.from_dict (Spec.order_document n key names entries ds)
    clients_map catalog
  = Raise (ValueError (BadIsoFormat ds)).
Proof.
  intros Hc Hd Hn.
  unfold Order.from_dict, Spec.order_document.
  change (item _ "client_number") with (Ok (VInt key)).
  cbn [bind]. unfold Order.lookup_client. cbn [int_key bind].
  rewrite Hc.
  change (get_default _ "products_list" _)
    with (Ok (VList (map VStr names))).
  cbn [bind iterate]. rewrite resolve_list_names.
  change (get_default _ "products_kg" _)
    with (Ok (VDict (map (fun e => (fst e, VFloat (snd e))) entries))).
  cbn [bind items]. rewrite resolve_kg_weights by exact Hn.
  change (item _ "date") with (Ok (VStr ds)).
  cbn [bind Order.parse_date]. now rewrite Hd.
Qed.

End ModelMore.

(** X9 at the client "Petrov", built from padded and capitalised input. *)
Lemma constructed_client_is_normalised_witness :
  Spec.lawful Sample.runtime
  /\ Client.init (rt := Sample.runtime) (VInt 2) (VStr (Str.lit " Petrov"))
       (VStr (Str.lit "+79997654321 ")) (VStr (Str.lit "P@Yandex.ru"))
     = Ok Eg.petrov
  /\ Str.strip (Client.fio Eg.petrov) = Client.fio Eg.petrov
  /\ Spec.phone_form (Client.phone Eg.petrov)
  /\ (Client.email Eg.petrov = [] \/ Spec.email_form (Client.email Eg.petrov))
  /\ lower (rt := Sample.runtime) (Client.email Eg.petrov)
     = Client.email Eg.petrov.
Proof.
  assert (H : Client.init (rt := Sample.runtime) (VInt 2)
                (VStr (Str.lit " Petrov")) (VStr (Str.lit "+79997654321 "))
                (VStr (Str.lit "P@Yandex.ru")) = Ok Eg.petrov)
    by reflexivity.
  split; [exact sample_lawful|].
  split; [exact H|].
  exact (@constructed_client_is_normalised Sample.runtime _ _ _ _ _
           sample_lawful H).
Defined.

(** X10 at a stored order of client 42, loaded with a clients map that
    holds client 1 only. *)
Lemma from_dict_unknown_client_witness :
  item Spec.orphan_document "client_number" = Ok (VInt 42)
  /\ Dict.get Z.eqb 42%Z [(1%Z, Eg.ivanov)] = None
  /\ Order.from_dict (rt := Sample.runtime) Spec.orphan_document
       [(1%Z, Eg.ivanov)] [Eg.laptop; Eg.sugar]
     = Raise KeyError.
Proof.
  split; [reflexivity|].
  split; [reflexivity|].
  exact (@from_dict_unknown_client Sample.runtime Spec.orphan_document
           [(1%Z, Eg.ivanov)] [Eg.laptop; Eg.sugar] 42%Z eq_refl eq_refl).
Defined.

(** X11 at a stored order dated "yesterday". *)
Lemma from_dict_malformed_date_witness :
  Dict.get Z.eqb 1%Z [(1%Z, Eg.ivanov)] = Some Eg.ivanov
  /\ @fromisoformat Sample.runtime (Str.lit "yesterday") = None
  /\ NoDup (map fst Eg.stale_entries)
  /\ Order.from_dict (rt := Sample.runtime)
       (Spec.order_document 101 1 Eg.stale_names Eg.stale_entries
          (Str.lit "yesterday"))
       [(1%Z, Eg.ivanov)] [Eg.laptop; Eg.sugar]
     = Raise (ValueError (BadIsoFormat (Str.lit "yesterday"))).
Proof.
  assert (H3 : NoDup (map fst Eg.stale_entries)).
  { repeat constructor; simpl; intuition discriminate. }
  split; [reflexivity|].
  split; [reflexivity|].
  split; [exact H3|].
  exact (@from_dict_malformed_date Sample.runtime [(1%Z, Eg.ivanov)]
           [Eg.laptop; Eg.sugar] 101%Z 1%Z Eg.stale_names Eg.stale_entries
           (Str.lit "yesterday") Eg.ivanov eq_refl eq_refl H3).
Defined.

(** ** Part V: further properties of the reports *)

Section Grouping.
Variables K V : Type.
Variable K_eq_dec : forall a b : K, {a = b} + {a <> b}.
Variable K_leb : K -> K -> bool.
Variable key : Analysis.row -> K.
Variable value_of : list Analysis.row -> V.

Lemma grouped_keys (df : Analysis.DataFrame) :
  map fst (map (fun g => (fst g, value_of (snd g)))
               (Analysis.groupby K_eq_dec K_leb key df))
  = Analysis.sort K_leb (nodup K_eq_dec (map key df)).
Proof.
  unfold Analysis.groupby. rewrite !map_map. simpl. apply map_id.
Qed.

Lemma grouped_values (df : Analysis.DataFrame) (k : K) (v : V) :
  In (k, v) (map (fun g => (fst g, value_of (snd g)))
                 (Analysis.groupby K_eq_dec K_leb key df)) ->
  v = value_of (filter (fun r => if K_eq_dec (key r) k then true else false)
                       df).
Proof.
  unfold Analysis.groupby. rewrite map_map. intros H.
  apply in_map_iff in H. destruct H as (k' & E & _).
  simpl in E. now injection E as -> <-.
Qed.

End Grouping.








Lemma top_clients_by_revenue_formula (orders : list Analysis.Order)
  (top : option Z) :
  Analysis.top_clients_by_revenue orders top
  = Ok (Analysis.head (Analysis.default_top top)
          (Analysis.sort_values_desc (fun a b => Qle_bool b a)
             (map (fun g => (fst g, Analysis.sum_price (snd g)))
                  (Analysis.groupby Analysis.client_key_eq_dec
                     Analysis.client_key_leb Analysis.client_key
                     (Analysis.orders_to_df orders))))).
Proof.
  unfold Analysis.top_clients_by_revenue.
  destruct (Analysis.orders_to_df orders) as [|r df]; [|reflexivity].
  simpl. now rewrite head_nil.
Qed.


Lemma top_products_by_revenue_formula (orders : list Analysis.Order)
  (top : option Z) :
  Analysis.top_products_by_revenue orders top
  = Ok (Analysis.head (Analysis.default_top top)
          (Analysis.sort_values_desc (fun a b => Qle_bool b a)
             (map (fun g => (fst g, Analysis.sum_price (snd g)))
                  (Analysis.groupby (list_eq_dec N.eq_dec) Str.leb
                     Analysis.ProductName
                     (Analysis.orders_to_df orders))))).
Proof.
  unfold Analysis.top_products_by_revenue.
  destruct (Analysis.orders_to_df orders) as [|r df]; [|reflexivity].
  simpl. now rewrite head_nil.
Qed.


Lemma date_leb_total (a b : Z * Z * Z) :
  Analysis.date_leb a b = false -> Analysis.date_leb b a = true.
Proof.
  destruct a as [[y1 m1] d1], b as [[y2 m2] d2]. unfold Analysis.date_leb.
  destruct (Z.compare_spec y1 y2), (Z.compare_spec y2 y1);
    try lia; try discriminate; try reflexivity.
  destruct (Z.compare_spec m1 m2), (Z.compare_spec m2 m1);
    try lia; try discriminate; try reflexivity.
Qed.

Lemma date_leb_trans (a b c : Z * Z * Z) :
  Analysis.date_leb a b = true -> Analysis.date_leb b c = true ->
  Analysis.date_leb a c = true.
Proof.
  destruct a as [[y1 m1] d1], b as [[y2 m2] d2], c as [[y3 m3] d3].
  unfold Analysis.date_leb.
  destruct (Z.compare_spec y1 y2), (Z.compare_spec y2 y3),
    (Z.compare_spec y1 y3); try lia; try discriminate; try reflexivity.
  destruct (Z.compare_spec m1 m2), (Z.compare_spec m2 m3),
    (Z.compare_spec m1 m3); try lia; try discriminate; try reflexivity.
Qed.

Lemma strongly_sorted_by_key (A B : Type) (R : A -> A -> Prop)
  (l : list (A * B)) :
  StronglySorted R (map fst l) ->
  StronglySorted (fun a b => R (fst a) (fst b)) l.
Proof.
  induction l as [|x l IH]; simpl; intros S; [constructor|].
  inversion S as [|? ? St Ft]; subst. constructor; [now apply IH|].
  rewrite Forall_map in Ft. exact Ft.
Qed.

Lemma day_keys_active (orders : list Analysis.Order) (k : Z * Z * Z) :
  In k (map Analysis.OrderDate (Analysis.orders_to_df orders))
  <-> In k (Spec.active_days orders).
Proof.
  unfold Spec.active_days. rewrite !in_map_iff. split.
  - intros (r & <- & Hr). apply in_orders_to_df in Hr.
    destruct Hr as (o & p & Ho & Hp & ->).
    exists o. split; [reflexivity|].
    apply filter_In. split; [exact Ho|].
    apply has_items_in. now exists p.
  - intros (o & <- & Ho). apply filter_In in Ho. destruct Ho as [Ho Hi].
    apply has_items_in in Hi. destruct Hi as [p Hp].
    eexists. split; [|apply in_orders_to_df; exists o, p; eauto].
    reflexivity.
Qed.

Lemma day_order_numbers (orders : list Analysis.Order) (k : Z * Z * Z)
  (x : Z) :
  In x (map Analysis.OrderNumber
          (filter (fun r => if Analysis.date_eq_dec (Analysis.OrderDate r) k
                            then true else false)
                  (Analysis.orders_to_df orders)))
  <-> In x (map Analysis.order_number
              (filter (fun o =>
                         Spec.has_items o
                         && if Analysis.date_eq_dec (Spec.day_of o) k
                            then true else false)
                      orders)).
Proof.
  rewrite !in_map_iff. split.
  - intros (r & <- & Hr). apply filter_In in Hr. destruct Hr as [Hr Hk].
    apply in_orders_to_df in Hr. destruct Hr as (o & p & Ho & Hp & ->).
    exists o. split; [reflexivity|].
    apply filter_In. split; [exact Ho|].
    apply andb_true_iff. split.
    + apply has_items_in. now exists p.
    + exact Hk.
  - intros (o & <- & Ho). apply filter_In in Ho. destruct Ho as [Ho Hc].
    apply andb_true_iff in Hc. destruct Hc as [Hi Hk].
    apply has_items_in in Hi. destruct Hi as [p Hp].
    eexists. split; [|apply filter_In; split;
                       [apply in_orders_to_df; exists o, p; eauto|]].
    + reflexivity.
    + exact Hk.
Qed.

Lemma day_count (orders : list Analysis.Order) (k : Z * Z * Z) :
  Analysis.nunique
    (filter (fun r => if Analysis.date_eq_dec (Analysis.OrderDate r) k
                      then true else false)
            (Analysis.orders_to_df orders))
  = Spec.orders_on k orders.
Proof.
  unfold Analysis.nunique, Spec.orders_on.
  apply nodup_length_same_elements. apply day_order_numbers.
Qed.

Lemma active_day_has_orders (orders : list Analysis.Order) (k : Z * Z * Z) :
  In k (Spec.active_days orders) -> (1 <= Spec.orders_on k orders)%nat.
Proof.
  unfold Spec.active_days, Spec.orders_on. intros H.
  apply in_map_iff in H. destruct H as (o & <- & Ho).
  apply filter_In in Ho. destruct Ho as [Ho Hi].
  assert (I : In (Analysis.order_number o)
                (nodup Z.eq_dec
                   (map Analysis.order_number
                      (filter (fun o' =>
                                 Spec.has_items o'
                                 && if Analysis.date_eq_dec
                                         (Spec.day_of o') (Spec.day_of o)
                                    then true else false)
                              orders)))).
  { apply nodup_In. apply in_map. apply filter_In. split; [exact Ho|].
    rewrite Hi. cbn [andb].
    destruct (Analysis.date_eq_dec (Spec.day_of o) (Spec.day_of o));
      [reflexivity | contradiction]. }
  destruct (nodup Z.eq_dec _) as [|x l]; [destruct I | simpl; lia].
Qed.

Lemma order_dynamics_formula (orders : list Analysis.Order) :
  Analysis.order_dynamics orders
  = Ok (map (fun g => (fst g, Analysis.nunique (snd g)))
            (Analysis.groupby Analysis.date_eq_dec Analysis.date_leb
               Analysis.OrderDate (Analysis.orders_to_df orders))).
Proof.
  unfold Analysis.order_dynamics.
  destruct (Analysis.orders_to_df orders) as [|r df]; reflexivity.
Qed.

(** X14: the daily series.  [order_dynamics] returns, without raising, a
    series with exactly one entry per calendar day on which an order with
    line items was placed, no day twice and none for a day without such an
    order, in ascending order of the days; the value of an entry is the
    number of distinct order numbers among that day's orders with line
    items, and it is at least one.  The time of day does not matter. *)
Theorem order_dynamics_series (orders : list Analysis.Order) :
  exists daily : Analysis.Series (Z * Z * Z) nat,
    Analysis.order_dynamics orders = Ok daily
    /\ Permutation (map fst daily)
         (nodup Analysis.date_eq_dec (Spec.active_days orders))
    /\ NoDup (map fst daily)
    /\ StronglySorted
         (fun a b => Analysis.date_leb (fst a) (fst b) = true) daily
    /\ (forall day n, In (day, n) daily ->
          n = Spec.orders_on day orders /\ (1 <= n)%nat).
Proof.
  set (df := Analysis.orders_to_df orders).
  set (daily := map (fun g => (fst g, Analysis.nunique (snd g)))
                    (Analysis.groupby Analysis.date_eq_dec Analysis.date_leb
                       Analysis.OrderDate df)).
  exists daily.
  assert (K : map fst daily
              = Analysis.sort Analysis.date_leb
                  (nodup Analysis.date_eq_dec (map Analysis.OrderDate df)))
    by apply grouped_keys.
  assert (P : Permutation (map fst daily)
                (nodup Analysis.date_eq_dec (Spec.active_days orders))).
  { rewrite K.
    apply Permutation_trans
      with (nodup Analysis.date_eq_dec (map Analysis.OrderDate df));
      [apply sort_permutation|].
    apply NoDup_Permutation; try apply NoDup_nodup.
    intros k. rewrite !nodup_In. apply day_keys_active. }
  split; [apply order_dynamics_formula|].
  split; [exact P|].
  split; [|split].
  - apply (Permutation_NoDup (Permutation_sym P)). apply NoDup_nodup.
  - apply (@strongly_sorted_by_key (Z * Z * Z) nat
             (fun a b => Analysis.date_leb a b = true) daily).
    rewrite K.
    apply sort_sorted; [apply date_leb_total | apply date_leb_trans].
  - intros day n H.
    assert (I : In day (Spec.active_days orders)).
    { apply (nodup_In Analysis.date_eq_dec).
      apply (Permutation_in _ P). apply in_map_iff. now exists (day, n). }
    apply grouped_values in H. unfold df in H.
    rewrite day_count in H. subst n.
    split; [reflexivity | now apply active_day_has_orders].
Qed.

(** *** Saving weighed lines, and a negative [top] *)

Section DictKeys.
Variables K V : Type.
Variable eqb : K -> K -> bool.
Hypothesis eqb_eq : forall a b, eqb a b = true <-> a = b.

Lemma in_keys_set (k : K) (v : V) (d : Dict.t K V) (x : K) :
  In x (Dict.keys (Dict.set eqb k v d)) <-> x = k \/ In x (Dict.keys d).
Proof.
  induction d as [|[k1 v1] d IH]; simpl.
  - intuition congruence.
  - destruct (eqb k k1) eqn:E; simpl.
    + apply eqb_eq in E. subst k1. intuition congruence.
    + unfold Dict.keys in IH. rewrite IH. intuition congruence.
Qed.

Lemma nodup_keys_set (k : K) (v : V) (d : Dict.t K V) :
  NoDup (Dict.keys d) -> NoDup (Dict.keys (Dict.set eqb k v d)).
Proof.
  induction d as [|[k1 v1] d IH]; simpl; intros D.
  - constructor; [simpl; tauto | constructor].
  - inversion D as [|? ? N1 D1]; subst.
    destruct (eqb k k1) eqn:E; simpl.
    + constructor; assumption.
    + constructor; [|now apply IH].
      intros I. apply in_keys_set in I. destruct I as [->|I].
      * assert (T : eqb k k = true) by now apply eqb_eq. congruence.
      * now apply N1.
Qed.

Lemma comprehension_keys (A : Type) (key : A -> K) (val : A -> V)
  (xs : list A) :
  NoDup (Dict.keys (Dict.comprehension eqb key val xs))
  /\ (forall x, In x (Dict.keys (Dict.comprehension eqb key val xs))
                <-> In x (map key xs)).
Proof.
  induction xs as [|x xs [D I]] using rev_ind.
  - split; [constructor | reflexivity].
  - rewrite comprehension_snoc. split.
    + now apply nodup_keys_set.
    + intros y. rewrite in_keys_set, I, map_app, in_app_iff. simpl.
      intuition congruence.
Qed.

Lemma get_comprehension_last (A : Type) (key : A -> K) (val : A -> V)
  (before after : list A) (x : A) :
  ~ In (key x) (map key after) ->
  Dict.get eqb (key x)
    (Dict.comprehension eqb key val (before ++ x :: after))
  = Some (val x).
Proof.
  assert (R : eqb (key x) (key x) = true) by now apply eqb_eq.
  induction after as [|y after IH] using rev_ind; intros N.
  - rewrite comprehension_snoc, (@dict_get_set _ _ eqb eqb_eq). now rewrite R.
  - change (before ++ x :: after ++ [y])
      with (before ++ (x :: after) ++ [y]).
    rewrite app_assoc, comprehension_snoc, (@dict_get_set _ _ eqb eqb_eq).
    rewrite map_app, in_app_iff in N. simpl in N.
    destruct (eqb (key x) (key y)) eqn:E.
    + apply eqb_eq in E. symmetry in E. tauto.
    + apply IH. tauto.
Qed.

End DictKeys.

(** X15: weighed lines are saved by product name.  In the document that
    [Order.to_dict] builds, the entry "products_kg" holds exactly one weight
    per distinct product name among the order's weighed lines, and the weight
    filed under a name is the one of the last weighed line whose product has
    that name: of two weighed products that share a name, the first one's
    weight is not saved. *)
Theorem to_dict_merges_weights_by_name (rt : Runtime) (o : Order.t) :
  exists weights : list (str * value),
    item (Order.to_dict o) "products_kg" = Ok (VDict weights)
    /\ Permutation (map fst weights)
         (nodup (list_eq_dec N.eq_dec)
            (map (fun it => Product.name (fst it)) (Order.products_kg o)))
    /\ (forall before p kg after,
          Order.products_kg o = before ++ (p, kg) :: after ->
          ~ In (Product.name p)
               (map (fun it => Product.name (fst it)) after) ->
          Dict.get Str.eqb (Product.name p) weights = Some (VFloat kg)).
Proof.
  exists (Dict.comprehension Str.eqb
            (fun it : Product.t * Q => Product.name (fst it))
            (fun it => VFloat (snd it)) (Order.products_kg o)).
  split; [reflexivity|]. split.
  - destruct (@comprehension_keys str value Str.eqb str_eqb_eq
                (Product.t * Q) (fun it => Product.name (fst it))
                (fun it => VFloat (snd it)) (Order.products_kg o))
      as [D I].
    apply NoDup_Permutation; [exact D | apply NoDup_nodup |].
    intros x. rewrite nodup_In. apply I.
  - intros before p kg after E N. rewrite E.
    apply (@get_comprehension_last str value Str.eqb str_eqb_eq
             (Product.t * Q) (fun it => Product.name (fst it))
             (fun it => VFloat (snd it)) before after (p, kg)).
    exact N.
Qed.

Lemma head_negative (A : Type) (k : positive) (l : list A) :
  exists dropped,
    l = Analysis.head (Z.neg k) l ++ dropped
    /\ List.length dropped = Nat.min (Pos.to_nat k) (List.length l).
Proof.
  exists (skipn (List.length l - Pos.to_nat k) l).
  change (Analysis.head (Z.neg k) l)
    with (firstn (List.length l - Pos.to_nat k) l).
  rewrite firstn_skipn, length_skipn. split; [reflexivity | lia].
Qed.

(** X16: a negative [top].  Each of the three rankings is a prefix of one
    full ranking for every [top] from 0 upwards; called with a negative
    [top] = -k it does not raise: it returns the full ranking without its
    last k entries, and so the empty ranking when the full one has at most
    k entries. *)
Theorem negative_top_drops_the_tail (orders : list Analysis.Order)
  (k : positive) :
  (exists ranking kept dropped,
      (forall m : nat,
          Analysis.top_clients_by_orders orders (Some (Z.of_nat m))
          = Ok (firstn m ranking))
      /\ Analysis.top_clients_by_orders orders (Some (Z.neg k)) = Ok kept
      /\ ranking = kept ++ dropped
      /\ List.length dropped
         = Nat.min (Pos.to_nat k) (List.length ranking))
  /\ (exists ranking kept dropped,
      (forall m : nat,
          Analysis.top_clients_by_revenue orders (Some (Z.of_nat m))
          = Ok (firstn m ranking))
      /\ Analysis.top_clients_by_revenue orders (Some (Z.neg k)) = Ok kept
      /\ ranking = kept ++ dropped
      /\ List.length dropped
         = Nat.min (Pos.to_nat k) (List.length ranking))
  /\ (exists ranking kept dropped,
      (forall m : nat,
          Analysis.top_products_by_revenue orders (Some (Z.of_nat m))
          = Ok (firstn m ranking))
      /\ Analysis.top_products_by_revenue orders (Some (Z.neg k)) = Ok kept
      /\ ranking = kept ++ dropped
      /\ List.length dropped
         = Nat.min (Pos.to_nat k) (List.length ranking)).
Proof.
  split; [|split].
  - pose proof (top_clients_by_orders_formula orders) as F.
    cbn [Analysis.default_top] in F.
    match type of F with
    | forall top, _ = Ok (Analysis.head _ ?r) =>
        destruct (head_negative k r) as (dropped & E & L);
        exists r, (Analysis.head (Z.neg k) r), dropped
    end.
    split; [intros m; rewrite (F (Some (Z.of_nat m)));
            cbn [Analysis.default_top]; now rewrite head_nat|].
    split; [exact (F (Some (Z.neg k)))|]. split; assumption.
  - pose proof (top_clients_by_revenue_formula orders) as F.
    match type of F with
    | forall top, _ = Ok (Analysis.head _ ?r) =>
        destruct (head_negative k r) as (dropped & E & L);
        exists r, (Analysis.head (Z.neg k) r), dropped
    end.
    split; [intros m; rewrite (F (Some (Z.of_nat m)));
            cbn [Analysis.default_top]; now rewrite head_nat|].
    split; [exact (F (Some (Z.neg k)))|]. split; assumption.
  - pose proof (top_products_by_revenue_formula orders) as F.
    match type of F with
    | forall top, _ = Ok (Analysis.head _ ?r) =>
        destruct (head_negative k r) as (dropped & E & L);
        exists r, (Analysis.head (Z.neg k) r), dropped
    end.
    split; [intros m; rewrite (F (Some (Z.of_nat m)));
            cbn [Analysis.default_top]; now rewrite head_nat|].
    split; [exact (F (Some (Z.neg k)))|]. split; assumption.
Qed.
